(** * Verification of the WebSocket stream layer of go-binance (v2)

    The development embeds [v2/websocket_service.go] (endpoint resolver,
    stream URL builders, per-stream message decoders) and
    [v2/futures/asset_index.go] (the asset index REST decoder) and states
    the properties of the specification over that embedding.

    Conventions of the embedding:
    - a Go [string] and a Go [[]byte] are a [string] (a sequence of bytes);
    - a Go [int64] is a [Z] (every int64 produced here comes out of
      [ParseInt], which clamps to the 64-bit range);
    - a Go [interface{}] holding decoded JSON is a [json] tree, [JNull] being
      the nil interface;
    - a callback-driven message handler is a function from the raw message
      to the [outcome] of handling it: which callback ran, with what
      argument, or which run-time panic stopped the handler first. *)

From Stdlib Require Import List String Ascii ZArith NArith Bool Lia.
Import ListNotations.
Local Open Scope string_scope.

(** ** Go strings *)

Module GoStrings.

(** The double quote byte, written by its code. *)
Definition dquote : ascii := Eval cbv in ascii_of_nat 34.

(** [lit] writes a JSON text with apostrophes in place of double quotes. *)
Fixpoint lit (s : string) : string :=
  match s with
  | EmptyString => EmptyString
  | String c r => String (if Ascii.eqb c "'" then dquote else c) (lit r)
  end.

Definition is_upper (c : ascii) : bool :=
  (Ascii.leb "A" c && Ascii.leb c "Z")%bool.

Definition is_lower (c : ascii) : bool :=
  (Ascii.leb "a" c && Ascii.leb c "z")%bool.

Definition lower (c : ascii) : ascii :=
  if is_upper c then ascii_of_N (N_of_ascii c + 32) else c.

Definition upper (c : ascii) : ascii :=
  if is_lower c then ascii_of_N (N_of_ascii c - 32) else c.

(** [strings.ToLower] and [strings.ToUpper] on ASCII strings: the letters
    [A]-[Z] and [a]-[z] change case, every other byte is kept. On a string
    with a byte outside the ASCII range Go maps the Unicode letters too,
    which these functions do not: properties that depend on the case
    mapping are stated for ASCII strings. *)
Fixpoint ToLower (s : string) : string :=
  match s with
  | EmptyString => EmptyString
  | String c r => String (lower c) (ToLower r)
  end.

Fixpoint ToUpper (s : string) : string :=
  match s with
  | EmptyString => EmptyString
  | String c r => String (upper c) (ToUpper r)
  end.

(** [strings.Split(s, sep)] for a one-byte separator: the pieces between
    the separators, never an empty slice. *)
Fixpoint Split (s : string) (sep : ascii) : list string :=
  match s with
  | EmptyString => [EmptyString]
  | String c r =>
      if Ascii.eqb c sep then EmptyString :: Split r sep
      else match Split r sep with
           | h :: t => String c h :: t
           | [] => [String c EmptyString]
           end
  end.

(** [strings.Split(s, sep)[0]] *)
Definition first_segment (s : string) (sep : ascii) : string :=
  hd EmptyString (Split s sep).

(** [s[:len(s)-1]]; Go panics on the empty string, which is [None]. *)
Fixpoint slice_drop_last (s : string) : option string :=
  match s with
  | EmptyString => None
  | String c EmptyString => Some EmptyString
  | String c r =>
      match slice_drop_last r with
      | Some r' => Some (String c r')
      | None => None
      end
  end.

(** Last byte of a string. *)
Fixpoint last_byte (s : string) : option ascii :=
  match s with
  | EmptyString => None
  | String c EmptyString => Some c
  | String _ r => last_byte r
  end.

(** [strings.HasPrefix(s, p)] *)
Definition HasPrefix (s p : string) : bool := String.prefix p s.

(** Does the byte occur in the string? *)
Fixpoint contains_byte (c : ascii) (s : string) : bool :=
  match s with
  | EmptyString => false
  | String d r => (Ascii.eqb c d || contains_byte c r)%bool
  end.

(** ASCII case folding, as field matching of a JSON key uses it. *)
Definition EqualFold (a b : string) : bool :=
  String.eqb (ToLower a) (ToLower b).

(** [strconv.ParseInt(s, 10, 64)]: the value and whether an error is
    returned. A syntax error gives 0, a range error the nearest bound. *)
Definition is_digit (c : ascii) : bool :=
  (Ascii.leb "0" c && Ascii.leb c "9")%bool.

Definition digit_val (c : ascii) : Z :=
  Z.of_N (N_of_ascii c) - 48.

Fixpoint parse_digits (s : string) (acc : Z) : option Z :=
  match s with
  | EmptyString => Some acc
  | String c r =>
      if is_digit c then parse_digits r (10 * acc + digit_val c) else None
  end.

Definition ParseUint (s : string) : option Z :=
  match s with
  | EmptyString => None
  | _ => parse_digits s 0
  end.

Definition int64_max : Z := 9223372036854775807.
Definition int64_min : Z := -9223372036854775808.

Definition ParseInt (s : string) : Z * bool :=
  match s with
  | EmptyString => (0, true)
  | String c r =>
      let neg := Ascii.eqb c "-" in
      let body := if (neg || Ascii.eqb c "+")%bool then r else s in
      match ParseUint body with
      | None => (0, true)
      | Some un =>
          if neg then
            if (un >? 9223372036854775808) then (int64_min, true)
            else (- un, false)
          else
            if (un >=? 9223372036854775808) then (int64_max, true)
            else (un, false)
      end
  end%Z.

End GoStrings.
Import GoStrings.

(** ** JSON values and the decoder of [encoding/json] *)

(** A decoded JSON value as Go holds it in an [interface{}] when the decoder
    runs with [UseNumber]: nil, [bool], [json.Number] (the literal text),
    [string], [[]interface{}] and [map[string]interface{}]. An object keeps
    its members in document order; a Go map keeps, for a key written twice,
    the later value, which [map_index] follows. *)
#[warnings="-register-all"]
Inductive json : Type :=
| JNull
| JBool (b : bool)
| JNumber (text : string)
| JString (s : string)
| JArray (elems : list json)
| JObject (members : list (string * json)).

Module JSONText.

Definition is_space (c : ascii) : bool :=
  let n := N_of_ascii c in
  (N.eqb n 32 || N.eqb n 9 || N.eqb n 10 || N.eqb n 13)%bool.

Fixpoint skip_ws (s : string) : string :=
  match s with
  | String c r => if is_space c then skip_ws r else s
  | EmptyString => s
  end.

(** Longest prefix of digits and what follows it. *)
Fixpoint scan_digits (s : string) : string * string :=
  match s with
  | String c r =>
      if is_digit c
      then let (ds, rest) := scan_digits r in (String c ds, rest)
      else (EmptyString, s)
  | EmptyString => (EmptyString, EmptyString)
  end.

(** One or more digits. *)
Definition scan_digits1 (s : string) : option (string * string) :=
  match scan_digits s with
  | (EmptyString, _) => None
  | (ds, rest) => Some (ds, rest)
  end.

Definition scan_int (s : string) : option (string * string) :=
  match s with
  | String c r =>
      if Ascii.eqb c "0" then Some ("0", r)
      else if is_digit c
           then let (ds, rest) := scan_digits r in Some (String c ds, rest)
           else None
  | EmptyString => None
  end.

Definition scan_frac (s : string) : option (string * string) :=
  match s with
  | String c r =>
      if Ascii.eqb c "." then
        match scan_digits1 r with
        | Some (ds, rest) => Some (String c ds, rest)
        | None => None
        end
      else Some (EmptyString, s)
  | EmptyString => Some (EmptyString, s)
  end.

Definition scan_sign (s : string) : string * string :=
  match s with
  | String d r =>
      if (Ascii.eqb d "+" || Ascii.eqb d "-")%bool
      then (String d EmptyString, r) else (EmptyString, s)
  | EmptyString => (EmptyString, s)
  end.

Definition scan_exp (s : string) : option (string * string) :=
  match s with
  | String c r =>
      if (Ascii.eqb c "e" || Ascii.eqb c "E")%bool then
        let (sign, r1) := scan_sign r in
        match scan_digits1 r1 with
        | Some (ds, rest) => Some (String c (sign ++ ds), rest)
        | None => None
        end
      else Some (EmptyString, s)
  | EmptyString => Some (EmptyString, s)
  end.

(** A JSON number literal: its text and what follows it. *)
Definition scan_number (s : string) : option (string * string) :=
  let (sign, s1) :=
    match s with
    | String c r => if Ascii.eqb c "-" then ("-", r) else (EmptyString, s)
    | EmptyString => (EmptyString, s)
    end in
  match scan_int s1 with
  | None => None
  | Some (ip, s2) =>
      match scan_frac s2 with
      | None => None
      | Some (fp, s3) =>
          match scan_exp s3 with
          | None => None
          | Some (ep, s4) => Some (sign ++ ip ++ fp ++ ep, s4)
          end
      end
  end.

Definition hex_val (c : ascii) : option N :=
  let n := N_of_ascii c in
  if is_digit c then Some (n - 48)%N
  else if (Ascii.leb "a" c && Ascii.leb c "f")%bool then Some (n - 87)%N
  else if (Ascii.leb "A" c && Ascii.leb c "F")%bool then Some (n - 55)%N
  else None.

Definition hex4 (a b c d : ascii) : option N :=
  match hex_val a, hex_val b, hex_val c, hex_val d with
  | Some x, Some y, Some z, Some w =>
      Some (((x * 16 + y) * 16 + z) * 16 + w)%N
  | _, _, _, _ => None
  end.

(** The pieces of a string literal: a plain byte or a [\uXXXX] unit. *)
Inductive unit16 : Type :=
| UByte (c : ascii)
| UEsc (n : N).

(** The byte a one-letter escape stands for. *)
Definition escape_byte (e : ascii) : option ascii :=
  if Ascii.eqb e dquote then Some dquote
  else if Ascii.eqb e "\" then Some "\"%char
  else if Ascii.eqb e "/" then Some "/"%char
  else if Ascii.eqb e "b" then Some (ascii_of_N 8)
  else if Ascii.eqb e "f" then Some (ascii_of_N 12)
  else if Ascii.eqb e "n" then Some (ascii_of_N 10)
  else if Ascii.eqb e "r" then Some (ascii_of_N 13)
  else if Ascii.eqb e "t" then Some (ascii_of_N 9)
  else None.

Definition cons_unit (u : unit16) (r : option (list unit16 * string))
  : option (list unit16 * string) :=
  match r with
  | Some (us, rest) => Some (u :: us, rest)
  | None => None
  end.

(** The body of a string literal, after its opening quote, up to the
    closing quote. *)
Fixpoint scan_string (s : string) : option (list unit16 * string) :=
  match s with
  | EmptyString => None
  | String c r =>
      if Ascii.eqb c dquote then Some ([], r)
      else if Ascii.eqb c "\" then
        match r with
        | EmptyString => None
        | String e r' =>
            if Ascii.eqb e "u" then
              match r' with
              | String h1 (String h2 (String h3 (String h4 r''))) =>
                  match hex4 h1 h2 h3 h4 with
                  | Some n => cons_unit (UEsc n) (scan_string r'')
                  | None => None
                  end
              | _ => None
              end
            else
              match escape_byte e with
              | Some b => cons_unit (UByte b) (scan_string r')
              | None => None
              end
        end
      else if (N_of_ascii c <? 32)%N then None
      else cons_unit (UByte c) (scan_string r)
  end.

(** UTF-8 encoding of a code point. *)
Definition utf8 (n : N) : string :=
  let b (x : N) := ascii_of_N x in
  (if n <? 128 then String (b n) EmptyString
   else if n <? 2048 then
     String (b (192 + n / 64)) (String (b (128 + n mod 64)) EmptyString)
   else if n <? 65536 then
     String (b (224 + n / 4096))
       (String (b (128 + (n / 64) mod 64))
          (String (b (128 + n mod 64)) EmptyString))
   else
     String (b (240 + n / 262144))
       (String (b (128 + (n / 4096) mod 64))
          (String (b (128 + (n / 64) mod 64))
             (String (b (128 + n mod 64)) EmptyString))))%N.

Definition is_high (n : N) : bool := ((55296 <=? n) && (n <? 56320))%N.
Definition is_low (n : N) : bool := ((56320 <=? n) && (n <? 57344))%N.

(** Surrogate pairs combine; a lone surrogate becomes U+FFFD. *)
Fixpoint unquote (us : list unit16) : string :=
  match us with
  | [] => EmptyString
  | UByte c :: r => String c (unquote r)
  | UEsc n :: r =>
      if is_high n then
        match r with
        | UEsc m :: r' =>
            if is_low m
            then utf8 (65536 + (n - 55296) * 1024 + (m - 56320))%N
                   ++ unquote r'
            else utf8 65533 ++ unquote r
        | _ => utf8 65533 ++ unquote r
        end
      else if is_low n then utf8 65533 ++ unquote r
      else utf8 n ++ unquote r
  end.

(** What follows [word] at the head of [s]. *)
Fixpoint scan_literal (word : string) (s : string) : option string :=
  match word with
  | EmptyString => Some s
  | String c w =>
      match s with
      | String d r => if Ascii.eqb c d then scan_literal w r else None
      | EmptyString => None
      end
  end.

Definition literal (v : json) (word : string) (s : string)
  : option (json * string) :=
  match scan_literal word s with
  | Some rest => Some (v, rest)
  | None => None
  end.

(** Recursive descent over the JSON grammar. Every call consumes at least
    one byte before it recurses, so fuel above the length of the text is
    never exhausted ([parse_value_fuel]). *)
Fixpoint parse_value (fuel : nat) (s : string) {struct fuel}
  : option (json * string) :=
  match fuel with
  | O => None
  | S fuel' =>
      match skip_ws s with
      | EmptyString => None
      | String c r =>
          if Ascii.eqb c "{" then
            match skip_ws r with
            | EmptyString => None
            | String c1 r1 =>
                if Ascii.eqb c1 "}" then Some (JObject [], r1)
                else parse_members fuel' (String c1 r1) []
            end
          else if Ascii.eqb c "[" then
            match skip_ws r with
            | EmptyString => None
            | String c1 r1 =>
                if Ascii.eqb c1 "]" then Some (JArray [], r1)
                else parse_elements fuel' (String c1 r1) []
            end
          else if Ascii.eqb c dquote then
            match scan_string r with
            | Some (us, rest) => Some (JString (unquote us), rest)
            | None => None
            end
          else if Ascii.eqb c "t" then literal (JBool true) "rue" r
          else if Ascii.eqb c "f" then literal (JBool false) "alse" r
          else if Ascii.eqb c "n" then literal JNull "ull" r
          else
            match scan_number (String c r) with
            | Some (text, rest) => Some (JNumber text, rest)
            | None => None
            end
      end
  end

with parse_elements (fuel : nat) (s : string) (acc : list json)
       {struct fuel} : option (json * string) :=
  match fuel with
  | O => None
  | S fuel' =>
      match parse_value fuel' s with
      | None => None
      | Some (v, r) =>
          match skip_ws r with
          | EmptyString => None
          | String c r' =>
              if Ascii.eqb c "," then parse_elements fuel' r' (v :: acc)
              else if Ascii.eqb c "]"
                   then Some (JArray (rev (v :: acc)), r')
                   else None
          end
      end
  end

with parse_members (fuel : nat) (s : string) (acc : list (string * json))
       {struct fuel} : option (json * string) :=
  match fuel with
  | O => None
  | S fuel' =>
      match skip_ws s with
      | EmptyString => None
      | String q r =>
          if Ascii.eqb q dquote then
            match scan_string r with
            | None => None
            | Some (us, r1) =>
                match skip_ws r1 with
                | EmptyString => None
                | String c2 r2 =>
                    if Ascii.eqb c2 ":" then
                      match parse_value fuel' r2 with
                      | None => None
                      | Some (v, r3) =>
                          match skip_ws r3 with
                          | EmptyString => None
                          | String c4 r4 =>
                              if Ascii.eqb c4 "," then
                                parse_members fuel' r4
                                  ((unquote us, v) :: acc)
                              else if Ascii.eqb c4 "}" then
                                Some (JObject (rev ((unquote us, v) :: acc)),
                                      r4)
                              else None
                          end
                      end
                    else None
                end
            end
          else None
      end
  end.

(** The first JSON value of a text, and the text after it. *)
Definition parse_prefix (s : string) : option (json * string) :=
  parse_value (S (String.length s)) s.

(** A text that is one JSON value and white space. *)
Definition parse_document (s : string) : option json :=
  match parse_prefix s with
  | Some (v, rest) =>
      match skip_ws rest with
      | EmptyString => Some v
      | _ => None
      end
  | None => None
  end.

End JSONText.
Import JSONText.

(** ** Errors, panics and the outcome of a message handler *)

(** The errors a decoder hands to the error handler. *)
Inductive error : Type :=
| SyntaxError          (* the message is not JSON *)
| UnmarshalTypeError   (* a JSON value does not fit the Go type of its field *)
| TransportError.      (* the REST call itself failed *)

(** The run-time panics of unchecked Go operations. *)
Inductive panic : Type :=
| TypeAssertionPanic   (* [x.(T)] on a value whose dynamic type is not [T] *)
| IndexPanic.          (* index out of range *)

(** A computation that may panic. *)
Inductive run (A : Type) : Type :=
| Ret (a : A)
| Crash (p : panic).
Arguments Ret {A} a.
Arguments Crash {A} p.

Definition bind {A B : Type} (m : run A) (f : A -> run B) : run B :=
  match m with
  | Ret a => f a
  | Crash p => Crash p
  end.

Declare Scope run_scope.
Delimit Scope run_scope with run.
Notation "x <- m ;; k" := (bind m (fun x => k))
  (at level 61, m at next level, right associativity) : run_scope.

(** The loop body [for i := 0; i < n; i++ { out[i] = f(i) }]: the elements in
    index order, stopping at the first panic. *)
Fixpoint for_each {A B : Type} (f : A -> run B) (l : list A) : run (list B) :=
  match l with
  | [] => Ret []
  | a :: t =>
      match f a with
      | Crash p => Crash p
      | Ret b =>
          match for_each f t with
          | Crash p => Crash p
          | Ret bs => Ret (b :: bs)
          end
      end
  end.

(** What handling one message did: the success handler ran with an event,
    the error handler ran with an error, or the handler panicked before it
    called either. Every handler below calls at most one callback, as its
    last action. *)
Inductive outcome (E : Type) : Type :=
| Handler (event : E)
| ErrHandler (err : error)
| Panic (p : panic).
Arguments Handler {E} event.
Arguments ErrHandler {E} err.
Arguments Panic {E} p.

Definition deliver {E : Type} (m : run E) : outcome E :=
  match m with
  | Ret e => Handler e
  | Crash p => Panic p
  end.

(** ** The untyped JSON tree of go-simplejson *)

Module simplejson.

(** [m[key]] on a Go map: the value and whether the key is there. For a
    key written twice in the document the later member stands. *)
Fixpoint map_index (m : list (string * json)) (key : string) : option json :=
  match m with
  | [] => None
  | (k, v) :: t =>
      match map_index t key with
      | Some v' => Some v'
      | None => if String.eqb k key then Some v else None
      end
  end.

(** [m[key]] read as one value: nil for a key that is not there. *)
Definition map_get (m : list (string * json)) (key : string) : json :=
  match map_index m key with
  | Some v => v
  | None => JNull
  end.

(** [j.Get(key)]: the member, or a [Json] that wraps nil. The pointer it
    returns is never nil. *)
Definition Get (j : json) (key : string) : json :=
  match j with
  | JObject m => map_get m key
  | _ => JNull
  end.

(** [j.GetIndex(i)] *)
Definition GetIndex (j : json) (index : nat) : json :=
  match j with
  | JArray a => nth index a JNull
  | _ => JNull
  end.

(** [j.MustString()]: the string, or the empty string. *)
Definition MustString (j : json) : string :=
  match j with
  | JString s => s
  | _ => EmptyString
  end.

(** [j.MustInt64()]: the number read by [ParseInt], or 0 when the value is
    not a number or [ParseInt] returns an error. *)
Definition MustInt64 (j : json) : Z :=
  match j with
  | JNumber text =>
      let (n, bad) := ParseInt text in if bad then 0%Z else n
  | _ => 0%Z
  end.

(** [j.MustArray()]: the elements, or a nil slice. *)
Definition MustArray (j : json) : list json :=
  match j with
  | JArray a => a
  | _ => []
  end.

(** [j.MustMap()]: the members, or a nil map. *)
Definition MustMap (j : json) : list (string * json) :=
  match j with
  | JObject m => m
  | _ => []
  end.

(** [p != nil] for the [*Json] that [Get] returned. *)
Definition not_nil (p : json) : bool := true.

End simplejson.
Import simplejson.

(** Modelled from the spec: [newJSON] is declared outside the two files under
    verification. It is the untyped decoding path of the spec: the raw
    message parsed into a dynamic JSON tree (numbers kept as their text), a
    message that is not JSON being a decode error. As go-simplejson does, it
    reads the first JSON value of the message. *)
Definition newJSON (message : string) : error + json :=
  match parse_prefix message with
  | Some (v, _) => inr v
  | None => inl SyntaxError
  end.

(** ** Unchecked Go operations on dynamic values *)

(** [v.(string)] *)
Definition assert_string (v : json) : run string :=
  match v with
  | JString s => Ret s
  | _ => Crash TypeAssertionPanic
  end.

(** [v.(stdjson.Number)] *)
Definition assert_Number (v : json) : run string :=
  match v with
  | JNumber text => Ret text
  | _ => Crash TypeAssertionPanic
  end.

(** [v.([]interface{})] *)
Definition assert_slice (v : json) : run (list json) :=
  match v with
  | JArray a => Ret a
  | _ => Crash TypeAssertionPanic
  end.

(** [a[i]] *)
Definition index {A : Type} (a : list A) (i : nat) : run A :=
  match nth_error a i with
  | Some x => Ret x
  | None => Crash IndexPanic
  end.

(** [n, _ = v.(stdjson.Number).Int64()]: the value of [ParseInt], its error
    dropped. *)
Definition Number_Int64 (text : string) : Z := fst (ParseInt text).

(** ** The typed codec [json] *)

(** Modelled from the spec: the package-level codec [json] (its [Unmarshal]
    and [Marshal]) is declared outside the two files under verification. It
    is the tag-directed field mapping of the spec (JSON key -> field), with
    the rules of Go's [encoding/json]: a key selects the field whose tag is
    equal to it, else the first field whose tag is equal up to case; a key
    without a field is skipped; [null] leaves a field as it is (and resets a
    pointer); a value of the wrong JSON type is an error. *)
Module codec.

(** The Go type of a struct field. *)
#[warnings="-register-all"]
Inductive kind : Type :=
| KString
| KInt64
| KBool
| KStruct (fields : list (string * kind))
| KPtr (fields : list (string * kind)).

(** The value of a field; a struct is the store of its fields by tag, a
    field that was never written holding its zero value. *)
#[warnings="-register-all"]
Inductive gval : Type :=
| VString (s : string)
| VInt (n : Z)
| VBool (b : bool)
| VStruct (fs : list (string * gval))
| VPtr (target : option (list (string * gval))).

Definition store : Type := list (string * gval).

Fixpoint lookup (st : store) (tag : string) : option gval :=
  match st with
  | [] => None
  | (t, v) :: r => if String.eqb t tag then Some v else lookup r tag
  end.

Definition update (st : store) (tag : string) (v : gval) : store :=
  (tag, v) :: st.

Definition zero (k : kind) : gval :=
  match k with
  | KString => VString EmptyString
  | KInt64 => VInt 0
  | KBool => VBool false
  | KStruct _ => VStruct []
  | KPtr _ => VPtr None
  end.

Definition get_string (st : store) (tag : string) : string :=
  match lookup st tag with Some (VString s) => s | _ => EmptyString end.

Definition get_int64 (st : store) (tag : string) : Z :=
  match lookup st tag with Some (VInt n) => n | _ => 0%Z end.

Definition get_bool (st : store) (tag : string) : bool :=
  match lookup st tag with Some (VBool b) => b | _ => false end.

Definition get_struct (st : store) (tag : string) : store :=
  match lookup st tag with Some (VStruct fs) => fs | _ => [] end.

Definition get_ptr (st : store) (tag : string) : option store :=
  match lookup st tag with Some (VPtr p) => p | _ => None end.

(** The field a JSON key selects. *)
Definition find_field (fields : list (string * kind)) (key : string)
  : option (string * kind) :=
  match find (fun f => String.eqb (fst f) key) fields with
  | Some f => Some f
  | None => find (fun f => EqualFold (fst f) key) fields
  end.

(** Decoding the JSON value [v] into a field of type [k] that holds [cur]. *)
Fixpoint decode_value (k : kind) (v : json) (cur : gval) {struct v}
  : error + gval :=
  match v with
  | JNull =>
      match k with
      | KPtr _ => inr (VPtr None)
      | _ => inr cur
      end
  | JString s =>
      match k with
      | KString => inr (VString s)
      | _ => inl UnmarshalTypeError
      end
  | JNumber text =>
      match k with
      | KInt64 =>
          let (n, bad) := ParseInt text in
          if bad then inl UnmarshalTypeError else inr (VInt n)
      | _ => inl UnmarshalTypeError
      end
  | JBool b =>
      match k with
      | KBool => inr (VBool b)
      | _ => inl UnmarshalTypeError
      end
  | JArray _ => inl UnmarshalTypeError
  | JObject ms =>
      let decode_members (fields : list (string * kind)) (st0 : store) :=
        (fix members (ms : list (string * json)) (st : store) {struct ms}
           : error + store :=
           match ms with
           | [] => inr st
           | (key, v') :: rest =>
               match find_field fields key with
               | None => members rest st
               | Some (tag, k') =>
                   let cur' :=
                     match lookup st tag with
                     | Some g => g
                     | None => zero k'
                     end in
                   match decode_value k' v' cur' with
                   | inl e => inl e
                   | inr g => members rest (update st tag g)
                   end
               end
           end) ms st0 in
      match k with
      | KStruct fields =>
          let st0 := match cur with VStruct st => st | _ => [] end in
          match decode_members fields st0 with
          | inl e => inl e
          | inr st => inr (VStruct st)
          end
      | KPtr fields =>
          let st0 := match cur with VPtr (Some st) => st | _ => [] end in
          match decode_members fields st0 with
          | inl e => inl e
          | inr st => inr (VPtr (Some st))
          end
      | _ => inl UnmarshalTypeError
      end
  end.

(** [json.Unmarshal(v, new(T))] on a parsed value, [T] a struct with the
    given fields: the store of the decoded struct. *)
Definition unmarshal_value (fields : list (string * kind)) (v : json)
  : error + store :=
  match decode_value (KStruct fields) v (VStruct []) with
  | inl e => inl e
  | inr (VStruct st) => inr st
  | inr _ => inr []
  end.

(** [json.Unmarshal(message, new(T))]: the whole message must be one JSON
    value. *)
Definition Unmarshal (fields : list (string * kind)) (message : string)
  : error + store :=
  match parse_document message with
  | None => inl SyntaxError
  | Some v => unmarshal_value fields v
  end.

(** [json.Marshal] of a Go map writes every key once, the keys sorted. *)
Fixpoint has_key (m : list (string * json)) (key : string) : bool :=
  match m with
  | [] => false
  | (k, _) :: t => (String.eqb k key || has_key t key)%bool
  end.

Fixpoint distinct_keys (m : list (string * json)) : list (string * json) :=
  match m with
  | [] => []
  | (k, v) :: t =>
      if has_key t k then distinct_keys t else (k, v) :: distinct_keys t
  end.

Fixpoint insert_member (kv : string * json) (m : list (string * json))
  : list (string * json) :=
  match m with
  | [] => [kv]
  | kv' :: t =>
      if String.leb (fst kv) (fst kv') then kv :: m
      else kv' :: insert_member kv t
  end.

Definition sort_members (m : list (string * json)) : list (string * json) :=
  fold_right insert_member [] m.

(** [remarshal v] is the value read back from the text [json.Marshal(v)]:
    the same tree with the members of every object in the order [Marshal]
    writes them. *)
Fixpoint remarshal (v : json) : json :=
  match v with
  | JArray a => JArray (map remarshal a)
  | JObject m =>
      JObject
        (sort_members
           (distinct_keys
              ((fix members (m : list (string * json)) :=
                  match m with
                  | [] => []
                  | (k, v') :: t => (k, remarshal v') :: members t
                  end) m)))
  | _ => v
  end.

(** [jsonData, _ := json.Marshal(data); json.Unmarshal(jsonData, new(T))]
    for the map [data] that [MustMap] returned. A nil map is written as
    [null], which leaves the struct at its zero value; [MustMap] gives the
    empty member list for it, and [{}] decodes to the same struct. *)
Definition Unmarshal_map (fields : list (string * kind))
    (data : list (string * json)) : error + store :=
  unmarshal_value fields (remarshal (JObject data)).

End codec.
Import codec.

(** ** Event records *)

(** Modelled from the spec: [Bid] and [Ask] are declared outside the two
    files under verification; both are one order-book level, a price and a
    quantity kept as the decimal strings of the exchange. *)
Record PriceLevel : Type := mkPriceLevel {
  Price : string;
  Quantity : string
}.
Definition Bid : Type := PriceLevel.
Definition Ask : Type := PriceLevel.

Module WsPartialDepthEvent.
Record t : Type := mk {
  Symbol : string;
  LastUpdateID : Z;
  Bids : list Bid;
  Asks : list Ask
}.
End WsPartialDepthEvent.

Module WsDepthEvent.
Record t : Type := mk {
  Event : string;
  Time : Z;
  Symbol : string;
  LastUpdateID : Z;
  FirstUpdateID : Z;
  LastUpdateIDInLastStream : Z;
  Bids : list Bid;
  Asks : list Ask
}.
End WsDepthEvent.

Module WsKline.
Record t : Type := mk {
  StartTime : Z;
  EndTime : Z;
  Symbol : string;
  Interval : string;
  FirstTradeID : Z;
  LastTradeID : Z;
  Open : string;
  Close : string;
  High : string;
  Low : string;
  Volume : string;
  TradeNum : Z;
  IsFinal : bool;
  QuoteVolume : string;
  ActiveBuyVolume : string;
  ActiveBuyQuoteVolume : string
}.

Definition fields : list (string * kind) :=
  [("t", KInt64); ("T", KInt64); ("s", KString); ("i", KString);
   ("f", KInt64); ("L", KInt64); ("o", KString); ("c", KString);
   ("h", KString); ("l", KString); ("v", KString); ("n", KInt64);
   ("x", KBool); ("q", KString); ("V", KString); ("Q", KString)].

Definition of_store (st : store) : t :=
  {| StartTime := get_int64 st "t";
     EndTime := get_int64 st "T";
     Symbol := get_string st "s";
     Interval := get_string st "i";
     FirstTradeID := get_int64 st "f";
     LastTradeID := get_int64 st "L";
     Open := get_string st "o";
     Close := get_string st "c";
     High := get_string st "h";
     Low := get_string st "l";
     Volume := get_string st "v";
     TradeNum := get_int64 st "n";
     IsFinal := get_bool st "x";
     QuoteVolume := get_string st "q";
     ActiveBuyVolume := get_string st "V";
     ActiveBuyQuoteVolume := get_string st "Q" |}.
End WsKline.

Module WsKlineEvent.
Record t : Type := mk {
  Event : string;
  Time : Z;
  Symbol : string;
  Kline : WsKline.t
}.

Definition fields : list (string * kind) :=
  [("e", KString); ("E", KInt64); ("s", KString);
   ("k", KStruct WsKline.fields)].

Definition of_store (st : store) : t :=
  {| Event := get_string st "e";
     Time := get_int64 st "E";
     Symbol := get_string st "s";
     Kline := WsKline.of_store (get_struct st "k") |}.

(** [event.Symbol = s] *)
Definition set_Symbol (s : string) (e : t) : t :=
  {| Event := Event e; Time := Time e; Symbol := s; Kline := Kline e |}.
End WsKlineEvent.

Module WsAggTradeEvent.
Record t : Type := mk {
  Event : string;
  Time : Z;
  Symbol : string;
  AggTradeID : Z;
  Price : string;
  Quantity : string;
  FirstBreakdownTradeID : Z;
  LastBreakdownTradeID : Z;
  TradeTime : Z;
  IsBuyerMaker : bool;
  Placeholder : bool
}.

Definition fields : list (string * kind) :=
  [("e", KString); ("E", KInt64); ("s", KString); ("a", KInt64);
   ("p", KString); ("q", KString); ("f", KInt64); ("l", KInt64);
   ("T", KInt64); ("m", KBool); ("M", KBool)].

Definition of_store (st : store) : t :=
  {| Event := get_string st "e";
     Time := get_int64 st "E";
     Symbol := get_string st "s";
     AggTradeID := get_int64 st "a";
     Price := get_string st "p";
     Quantity := get_string st "q";
     FirstBreakdownTradeID := get_int64 st "f";
     LastBreakdownTradeID := get_int64 st "l";
     TradeTime := get_int64 st "T";
     IsBuyerMaker := get_bool st "m";
     Placeholder := get_bool st "M" |}.

(** [event.Symbol = s] *)
Definition set_Symbol (s : string) (e : t) : t :=
  {| Event := Event e; Time := Time e; Symbol := s;
     AggTradeID := AggTradeID e; Price := Price e; Quantity := Quantity e;
     FirstBreakdownTradeID := FirstBreakdownTradeID e;
     LastBreakdownTradeID := LastBreakdownTradeID e;
     TradeTime := TradeTime e; IsBuyerMaker := IsBuyerMaker e;
     Placeholder := Placeholder e |}.
End WsAggTradeEvent.

Module WsTradeEvent.
Record t : Type := mk {
  Event : string;
  Time : Z;
  Symbol : string;
  TradeID : Z;
  Price : string;
  Quantity : string;
  BuyerOrderID : Z;
  SellerOrderID : Z;
  TradeTime : Z;
  IsBuyerMaker : bool;
  Placeholder : bool
}.

Definition fields : list (string * kind) :=
  [("e", KString); ("E", KInt64); ("s", KString); ("t", KInt64);
   ("p", KString); ("q", KString); ("b", KInt64); ("a", KInt64);
   ("T", KInt64); ("m", KBool); ("M", KBool)].

Definition of_store (st : store) : t :=
  {| Event := get_string st "e";
     Time := get_int64 st "E";
     Symbol := get_string st "s";
     TradeID := get_int64 st "t";
     Price := get_string st "p";
     Quantity := get_string st "q";
     BuyerOrderID := get_int64 st "b";
     SellerOrderID := get_int64 st "a";
     TradeTime := get_int64 st "T";
     IsBuyerMaker := get_bool st "m";
     Placeholder := get_bool st "M" |}.
End WsTradeEvent.

Module WsCombinedTradeEvent.
Record t : Type := mk {
  Stream : string;
  Data : WsTradeEvent.t
}.

Definition fields : list (string * kind) :=
  [("stream", KString); ("data", KStruct WsTradeEvent.fields)].

Definition of_store (st : store) : t :=
  {| Stream := get_string st "stream";
     Data := WsTradeEvent.of_store (get_struct st "data") |}.
End WsCombinedTradeEvent.

Module WsMarketStatEvent.
Record t : Type := mk {
  Event : string;
  Time : Z;
  Symbol : string;
  PriceChange : string;
  PriceChangePercent : string;
  WeightedAvgPrice : string;
  PrevClosePrice : string;
  LastPrice : string;
  CloseQty : string;
  BidPrice : string;
  BidQty : string;
  AskPrice : string;
  AskQty : string;
  OpenPrice : string;
  HighPrice : string;
  LowPrice : string;
  BaseVolume : string;
  QuoteVolume : string;
  OpenTime : Z;
  CloseTime : Z;
  FirstID : Z;
  LastID : Z;
  Count : Z
}.

Definition fields : list (string * kind) :=
  [("e", KString); ("E", KInt64); ("s", KString); ("p", KString);
   ("P", KString); ("w", KString); ("x", KString); ("c", KString);
   ("Q", KString); ("b", KString); ("B", KString); ("a", KString);
   ("A", KString); ("o", KString); ("h", KString); ("l", KString);
   ("v", KString); ("q", KString); ("O", KInt64); ("C", KInt64);
   ("F", KInt64); ("L", KInt64); ("n", KInt64)].

Definition of_store (st : store) : t :=
  {| Event := get_string st "e";
     Time := get_int64 st "E";
     Symbol := get_string st "s";
     PriceChange := get_string st "p";
     PriceChangePercent := get_string st "P";
     WeightedAvgPrice := get_string st "w";
     PrevClosePrice := get_string st "x";
     LastPrice := get_string st "c";
     CloseQty := get_string st "Q";
     BidPrice := get_string st "b";
     BidQty := get_string st "B";
     AskPrice := get_string st "a";
     AskQty := get_string st "A";
     OpenPrice := get_string st "o";
     HighPrice := get_string st "h";
     LowPrice := get_string st "l";
     BaseVolume := get_string st "v";
     QuoteVolume := get_string st "q";
     OpenTime := get_int64 st "O";
     CloseTime := get_int64 st "C";
     FirstID := get_int64 st "F";
     LastID := get_int64 st "L";
     Count := get_int64 st "n" |}.

(** [event.Symbol = s] *)
Definition set_Symbol (s : string) (e : t) : t :=
  {| Event := Event e; Time := Time e; Symbol := s;
     PriceChange := PriceChange e;
     PriceChangePercent := PriceChangePercent e;
     WeightedAvgPrice := WeightedAvgPrice e;
     PrevClosePrice := PrevClosePrice e; LastPrice := LastPrice e;
     CloseQty := CloseQty e; BidPrice := BidPrice e; BidQty := BidQty e;
     AskPrice := AskPrice e; AskQty := AskQty e; OpenPrice := OpenPrice e;
     HighPrice := HighPrice e; LowPrice := LowPrice e;
     BaseVolume := BaseVolume e; QuoteVolume := QuoteVolume e;
     OpenTime := OpenTime e; CloseTime := CloseTime e;
     FirstID := FirstID e; LastID := LastID e; Count := Count e |}.
End WsMarketStatEvent.

Module WsBookTickerEvent.
Record t : Type := mk {
  UpdateID : Z;
  Symbol : string;
  BestBidPrice : string;
  BestBidQty : string;
  BestAskPrice : string;
  BestAskQty : string
}.

Definition fields : list (string * kind) :=
  [("u", KInt64); ("s", KString); ("b", KString); ("B", KString);
   ("a", KString); ("A", KString)].

Definition of_store (st : store) : t :=
  {| UpdateID := get_int64 st "u";
     Symbol := get_string st "s";
     BestBidPrice := get_string st "b";
     BestBidQty := get_string st "B";
     BestAskPrice := get_string st "a";
     BestAskQty := get_string st "A" |}.
End WsBookTickerEvent.

Module WsCombinedBookTickerEvent.
(** [Data] is a pointer: [None] is nil. *)
Record t : Type := mk {
  Data : option WsBookTickerEvent.t;
  Stream : string
}.

Definition fields : list (string * kind) :=
  [("data", KPtr WsBookTickerEvent.fields); ("stream", KString)].

Definition of_store (st : store) : t :=
  {| Data := option_map WsBookTickerEvent.of_store (get_ptr st "data");
     Stream := get_string st "stream" |}.
End WsCombinedBookTickerEvent.

(** ** Endpoints and stream URLs *)

Definition baseWsMainURL : string := "wss://fstream.binance.com/ws".
Definition baseWsTestnetURL : string := "wss://testnet.binance.vision/ws".
Definition baseCombinedMainURL : string :=
  "wss://fstream.binance.com/stream?streams=".
Definition baseCombinedTestnetURL : string :=
  "wss://testnet.binance.vision/stream?streams=".

(** The loop [for _, s := range xs { endpoint += descriptor(s) + "/" }]
    followed by [endpoint = endpoint[:len(endpoint)-1]]. [None] is the panic
    of the slice expression on an empty string. *)
Definition join_streams {A : Type} (base : string) (descriptor : A -> string)
    (xs : list A) : option string :=
  slice_drop_last
    (fold_left (fun endpoint x => endpoint ++ (descriptor x ++ "/")) xs base).

Section Endpoints.

(** The process-wide flag [UseTestnet], declared outside these files. *)
Variable UseTestnet : bool.

Definition getWsEndpoint : string :=
  if UseTestnet then baseWsTestnetURL else baseWsMainURL.

Definition getCombinedEndpoint : string :=
  if UseTestnet then baseCombinedTestnetURL else baseCombinedMainURL.

(** *** Single-stream subscriptions *)

Definition WsPartialDepthServe_endpoint (symbol levels : string) : string :=
  getWsEndpoint ++ "/" ++ ToLower symbol ++ "@depth" ++ levels.

Definition WsPartialDepthServe100Ms_endpoint (symbol levels : string)
  : string :=
  getWsEndpoint ++ "/" ++ ToLower symbol ++ "@depth" ++ levels ++ "@100ms".

Definition WsDepthServe_endpoint (symbol : string) : string :=
  getWsEndpoint ++ "/" ++ ToLower symbol ++ "@depth".

Definition WsDepthServe100Ms_endpoint (symbol : string) : string :=
  getWsEndpoint ++ "/" ++ ToLower symbol ++ "@depth@100ms".

Definition WsKlineServe_endpoint (symbol interval : string) : string :=
  getWsEndpoint ++ "/" ++ ToLower symbol ++ "@kline_" ++ interval.

Definition WsAggTradeServe_endpoint (symbol : string) : string :=
  getWsEndpoint ++ "/" ++ ToLower symbol ++ "@aggTrade".

Definition WsAssetIndexServer_endpoint : string :=
  getWsEndpoint ++ "/!assetIndex@arr".

Definition WsTradeServe_endpoint (symbol : string) : string :=
  getWsEndpoint ++ "/" ++ ToLower symbol ++ "@trade".

Definition WsUserDataServe_endpoint (listenKey : string) : string :=
  getWsEndpoint ++ "/" ++ listenKey.

Definition WsMarketStatServe_endpoint (symbol : string) : string :=
  getWsEndpoint ++ "/" ++ ToLower symbol ++ "@ticker".

Definition WsAllMarketsStatServe_endpoint : string :=
  getWsEndpoint ++ "/!ticker@arr".

Definition WsAllMiniMarketsStatServe_endpoint : string :=
  getWsEndpoint ++ "/!miniTicker@arr".

Definition WsBookTickerServe_endpoint (symbol : string) : string :=
  getWsEndpoint ++ "/" ++ ToLower symbol ++ "@bookTicker".

Definition WsAllBookTickerServe_endpoint : string :=
  getWsEndpoint ++ "/!bookTicker".

(** *** Combined subscriptions *)

(** A Go map argument is given as the list of its entries in the order
    the [range] loop visits them. *)
Definition WsCombinedPartialDepthServe_endpoint
    (symbolLevels : list (string * string)) : option string :=
  join_streams getCombinedEndpoint
    (fun sl => ToLower (fst sl) ++ "@depth" ++ snd sl) symbolLevels.

Definition WsCombinedDepthServe_endpoint (symbols : list string)
  : option string :=
  join_streams getCombinedEndpoint (fun s => ToLower s ++ "@depth") symbols.

Definition WsCombinedDepthServe100Ms_endpoint (symbols : list string)
  : option string :=
  join_streams getCombinedEndpoint
    (fun s => ToLower s ++ "@depth@100ms") symbols.

Definition WsCombinedKlineServe_endpoint
    (symbolIntervalPair : list (string * string)) : option string :=
  join_streams getCombinedEndpoint
    (fun si => ToLower (fst si) ++ "@kline_" ++ snd si) symbolIntervalPair.

Definition WsCombinedAggTradeServe_endpoint (symbols : list string)
  : option string :=
  join_streams getCombinedEndpoint
    (fun s => ToLower s ++ "@aggTrade") symbols.

Definition WsCombinedTradeServe_endpoint (symbols : list string)
  : option string :=
  join_streams getCombinedEndpoint (fun s => ToLower s ++ "@trade") symbols.

Definition WsCombinedMarketStatServe_endpoint (symbols : list string)
  : option string :=
  join_streams getCombinedEndpoint (fun s => ToLower s ++ "@ticker") symbols.

(** This one starts from [baseCombinedMainURL], not from
    [getCombinedEndpoint()]. *)
Definition WsCombinedBookTickerServe_endpoint (symbols : list string)
  : option string :=
  join_streams baseCombinedMainURL
    (fun s => ToLower s ++ "@bookTicker") symbols.

Definition WsCombinedMarkPriceForAllServe_endpoint : string :=
  getCombinedEndpoint ++ "!markPrice@arr".

End Endpoints.

(** ** Message handlers

    For each subscribe function, the closure [wsHandler] it registers: the
    raw message in, the outcome of handling it out. *)

Local Open Scope run_scope.

(** One level of a flat-mode book side: [item := side.GetIndex(i)] read with
    the defaulting accessors. *)
Definition flat_level (side : json) (i : nat) : PriceLevel :=
  let item := GetIndex side i in
  {| Price := MustString (GetIndex item 0);
     Quantity := MustString (GetIndex item 1) |}.

(** The flat-mode loop over one side of the book. *)
Definition flat_levels (side : json) : list PriceLevel :=
  let sideLen := List.length (MustArray side) in
  map (flat_level side) (seq 0 sideLen).

(** One level of a combined-mode book side:
    [item := data[key].([]interface{})[i].([]interface{})] read with
    unchecked assertions and indexing. *)
Definition combined_level (data : list (string * json)) (key : string)
    (i : nat) : run PriceLevel :=
  side <- assert_slice (map_get data key) ;;
  elem <- index side i ;;
  item <- assert_slice elem ;;
  p <- index item 0 ;;
  price <- assert_string p ;;
  q <- index item 1 ;;
  quantity <- assert_string q ;;
  Ret {| Price := price; Quantity := quantity |}.

(** The combined-mode loop over one side of the book. *)
Definition combined_levels (data : list (string * json)) (key : string)
  : run (list PriceLevel) :=
  side <- assert_slice (map_get data key) ;;
  let sideLen := List.length side in
  for_each (combined_level data key) (seq 0 sideLen).

(** [wsPartialDepthServe] *)
Definition wsPartialDepthServe_wsHandler (symbol : string) (message : string)
  : outcome WsPartialDepthEvent.t :=
  match newJSON message with
  | inl err => ErrHandler err
  | inr j =>
      Handler
        {| WsPartialDepthEvent.Symbol := symbol;
           WsPartialDepthEvent.LastUpdateID :=
             MustInt64 (Get j "lastUpdateId");
           WsPartialDepthEvent.Bids := flat_levels (Get j "bids");
           WsPartialDepthEvent.Asks := flat_levels (Get j "asks") |}
  end.


Definition WsPartialDepthServe100Ms_wsHandler (symbol levels : string)
  : string -> outcome WsPartialDepthEvent.t :=
  wsPartialDepthServe_wsHandler symbol.

(** [WsCombinedPartialDepthServe] *)
Definition WsCombinedPartialDepthServe_wsHandler (message : string)
  : outcome WsPartialDepthEvent.t :=
  match newJSON message with
  | inl err => ErrHandler err
  | inr j =>
      let stream := MustString (Get j "stream") in
      let symbol := first_segment stream "@" in
      let data := MustMap (Get j "data") in
      deliver
        (lastUpdateId <- assert_Number (map_get data "lastUpdateId") ;;
         bids <- combined_levels data "bids" ;;
         asks <- combined_levels data "asks" ;;
         Ret {| WsPartialDepthEvent.Symbol := ToUpper symbol;
                WsPartialDepthEvent.LastUpdateID := Number_Int64 lastUpdateId;
                WsPartialDepthEvent.Bids := bids;
                WsPartialDepthEvent.Asks := asks |})
  end.

(** [wsDepthServe] *)
Definition wsDepthServe_wsHandler (message : string)
  : outcome WsDepthEvent.t :=
  match newJSON message with
  | inl err => ErrHandler err
  | inr j =>
      Handler
        {| WsDepthEvent.Event := MustString (Get j "e");
           WsDepthEvent.Time := MustInt64 (Get j "E");
           WsDepthEvent.Symbol := MustString (Get j "s");
           WsDepthEvent.LastUpdateID := MustInt64 (Get j "u");
           WsDepthEvent.FirstUpdateID := MustInt64 (Get j "U");
           WsDepthEvent.LastUpdateIDInLastStream :=
             if not_nil (Get j "pu") then MustInt64 (Get j "pu") else 0%Z;
           WsDepthEvent.Bids := flat_levels (Get j "b");
           WsDepthEvent.Asks := flat_levels (Get j "a") |}
  end.

(** [wsCombinedDepthServe] *)
Definition wsCombinedDepthServe_wsHandler (message : string)
  : outcome WsDepthEvent.t :=
  match newJSON message with
  | inl err => ErrHandler err
  | inr j =>
      let stream := MustString (Get j "stream") in
      let symbol := first_segment stream "@" in
      let data := MustMap (Get j "data") in
      deliver
        (e <- assert_string (map_get data "e") ;;
         time <- assert_Number (map_get data "E") ;;
         u <- assert_Number (map_get data "u") ;;
         U <- assert_Number (map_get data "U") ;;
         pu <- match map_index data "pu" with
               | Some v => n <- assert_Number v ;; Ret (Number_Int64 n)
               | None => Ret 0%Z
               end ;;
         bids <- combined_levels data "b" ;;
         asks <- combined_levels data "a" ;;
         Ret {| WsDepthEvent.Event := e;
                WsDepthEvent.Time := Number_Int64 time;
                WsDepthEvent.Symbol := ToUpper symbol;
                WsDepthEvent.LastUpdateID := Number_Int64 u;
                WsDepthEvent.FirstUpdateID := Number_Int64 U;
                WsDepthEvent.LastUpdateIDInLastStream := pu;
                WsDepthEvent.Bids := bids;
                WsDepthEvent.Asks := asks |})
  end.

(** The flat typed handlers: [json.Unmarshal(message, event)], then the
    error handler or the success handler. *)
Definition typed_wsHandler {E : Type} (fields : list (string * kind))
    (of_store : store -> E) (message : string) : outcome E :=
  match Unmarshal fields message with
  | inl err => ErrHandler err
  | inr st => Handler (of_store st)
  end.

(** The combined handlers that re-marshal the envelope's [data]: the stream
    name and the data map are taken from the untyped tree, the data map is
    marshalled and unmarshalled into the typed event, and the symbol of the
    stream name, in upper case, is written over the event's symbol. *)
Definition combined_wsHandler {E : Type} (fields : list (string * kind))
    (of_store : store -> E) (set_Symbol : string -> E -> E)
    (message : string) : outcome E :=
  match newJSON message with
  | inl err => ErrHandler err
  | inr j =>
      let stream := MustString (Get j "stream") in
      let data := MustMap (Get j "data") in
      let symbol := first_segment stream "@" in
      match Unmarshal_map fields data with
      | inl err => ErrHandler err
      | inr st => Handler (set_Symbol (ToUpper symbol) (of_store st))
      end
  end.


(** [WsCombinedKlineServe] *)
Definition WsCombinedKlineServe_wsHandler : string -> outcome WsKlineEvent.t :=
  combined_wsHandler WsKlineEvent.fields WsKlineEvent.of_store
    WsKlineEvent.set_Symbol.


(** [WsCombinedAggTradeServe] *)
Definition WsCombinedAggTradeServe_wsHandler
  : string -> outcome WsAggTradeEvent.t :=
  combined_wsHandler WsAggTradeEvent.fields WsAggTradeEvent.of_store
    WsAggTradeEvent.set_Symbol.

(** [WsTradeServe] *)
Definition WsTradeServe_wsHandler : string -> outcome WsTradeEvent.t :=
  typed_wsHandler WsTradeEvent.fields WsTradeEvent.of_store.

(** [WsCombinedTradeServe]: the whole envelope is unmarshalled into a
    [WsCombinedTradeEvent] and handed over as it is. *)
Definition WsCombinedTradeServe_wsHandler
  : string -> outcome WsCombinedTradeEvent.t :=
  typed_wsHandler WsCombinedTradeEvent.fields WsCombinedTradeEvent.of_store.


(** [WsCombinedMarketStatServe] *)
Definition WsCombinedMarketStatServe_wsHandler
  : string -> outcome WsMarketStatEvent.t :=
  combined_wsHandler WsMarketStatEvent.fields WsMarketStatEvent.of_store
    WsMarketStatEvent.set_Symbol.

(** [WsCombinedBookTickerServe]: the envelope is unmarshalled and the
    handler receives [event.Data], a pointer that may be nil ([None]). *)
Definition WsCombinedBookTickerServe_wsHandler (message : string)
  : outcome (option WsBookTickerEvent.t) :=
  match Unmarshal WsCombinedBookTickerEvent.fields message with
  | inl err => ErrHandler err
  | inr st =>
      Handler
        (WsCombinedBookTickerEvent.Data
           (WsCombinedBookTickerEvent.of_store st))
  end.

(** ** The read loop *)


(** ** The asset index REST call, [v2/futures/asset_index.go] *)

Module AssetIndexResponse.
Record t : Type := mk {
  Symbol : string;
  Time : Z;
  Index : string;
  BidBuffer : string;
  AskBuffer : string;
  BidRate : string;
  AskRate : string;
  AutoExchangeBidBuffer : string;
  AutoExchangeAskBuffer : string;
  AutoExchangeBidRate : string;
  AutoExchangeAskRate : string
}.
End AssetIndexResponse.

Module AssetIndexService.

(** The record appended for the array element [idx]. *)
Definition response_of (idx : json) : AssetIndexResponse.t :=
  {| AssetIndexResponse.Symbol := MustString (Get idx "symbol");
     AssetIndexResponse.Time := MustInt64 (Get idx "time");
     AssetIndexResponse.Index := MustString (Get idx "index");
     AssetIndexResponse.BidBuffer := MustString (Get idx "bidBuffer");
     AssetIndexResponse.AskBuffer := MustString (Get idx "askBuffer");
     AssetIndexResponse.BidRate := MustString (Get idx "bidRate");
     AssetIndexResponse.AskRate := MustString (Get idx "askRate");
     AssetIndexResponse.AutoExchangeBidBuffer :=
       MustString (Get idx "autoExchangeBidBuffer");
     AssetIndexResponse.AutoExchangeAskBuffer :=
       MustString (Get idx "autoExchangeAskBuffer");
     AssetIndexResponse.AutoExchangeBidRate :=
       MustString (Get idx "autoExchangeBidRate");
     AssetIndexResponse.AutoExchangeAskRate :=
       MustString (Get idx "autoExchangeAskRate") |}.

(** [Do], given what [s.c.callAPI] returned: the response body or an
    error. The result is the pair [(res, err)]; [None] in the first place
    is the nil slice, [None] in the second the nil error. *)
Definition Do (response : error + string)
  : option (list AssetIndexResponse.t) * option error :=
  match response with
  | inl err => (None, Some err)
  | inr data =>
      match newJSON data with
      | inl err => (None, Some err)
      | inr j =>
          let res :=
            fold_left
              (fun res i => (res ++ [response_of (GetIndex j i)])%list)
              (seq 0 (List.length (MustArray j))) [] in
          (Some res, None)
      end
  end.

End AssetIndexService.

(** ** The array streams, the flat book ticker and the mark price stream *)

Module WsAssetIndexEvent.
Record t : Type := mk {
  Event : string;
  Symbol : string;
  Time : Z;
  Index : string;
  BidBuffer : string;
  AskBuffer : string;
  BidRate : string;
  AskRate : string;
  AutoExchangeBidBuffer : string;
  AutoExchangeAskBuffer : string;
  AutoExchangeBidRate : string;
  AutoExchangeAskRate : string
}.

Definition fields : list (string * kind) :=
  [("e", KString); ("s", KString); ("E", KInt64); ("i", KString);
   ("b", KString); ("a", KString); ("B", KString); ("A", KString);
   ("q", KString); ("g", KString); ("Q", KString); ("G", KString)].

Definition of_store (st : store) : t :=
  {| Event := get_string st "e";
     Symbol := get_string st "s";
     Time := get_int64 st "E";
     Index := get_string st "i";
     BidBuffer := get_string st "b";
     AskBuffer := get_string st "a";
     BidRate := get_string st "B";
     AskRate := get_string st "A";
     AutoExchangeBidBuffer := get_string st "q";
     AutoExchangeAskBuffer := get_string st "g";
     AutoExchangeBidRate := get_string st "Q";
     AutoExchangeAskRate := get_string st "G" |}.
End WsAssetIndexEvent.

Module WsMiniMarketsStatEvent.
Record t : Type := mk {
  Event : string;
  Time : Z;
  Symbol : string;
  LastPrice : string;
  OpenPrice : string;
  HighPrice : string;
  LowPrice : string;
  BaseVolume : string;
  QuoteVolume : string
}.

Definition fields : list (string * kind) :=
  [("e", KString); ("E", KInt64); ("s", KString); ("c", KString);
   ("o", KString); ("h", KString); ("l", KString); ("v", KString);
   ("q", KString)].

Definition of_store (st : store) : t :=
  {| Event := get_string st "e";
     Time := get_int64 st "E";
     Symbol := get_string st "s";
     LastPrice := get_string st "c";
     OpenPrice := get_string st "o";
     HighPrice := get_string st "h";
     LowPrice := get_string st "l";
     BaseVolume := get_string st "v";
     QuoteVolume := get_string st "q" |}.
End WsMiniMarketsStatEvent.

Module WsMarkPriceEvent.
Record t : Type := mk {
  Event : string;
  Time : Z;
  Symbol : string;
  MarkPrice : string;
  IndexPrice : string;
  EstimatedSettlePrice : string;
  FundingRate : string;
  NextFundingTime : Z
}.

Definition fields : list (string * kind) :=
  [("e", KString); ("E", KInt64); ("s", KString); ("p", KString);
   ("i", KString); ("P", KString); ("r", KString); ("T", KInt64)].

Definition of_store (st : store) : t :=
  {| Event := get_string st "e";
     Time := get_int64 st "E";
     Symbol := get_string st "s";
     MarkPrice := get_string st "p";
     IndexPrice := get_string st "i";
     EstimatedSettlePrice := get_string st "P";
     FundingRate := get_string st "r";
     NextFundingTime := get_int64 st "T" |}.
End WsMarkPriceEvent.

(** Modelled from the spec: [json.Unmarshal] into a slice, for the streams
    that push a bare array of records. With the rules of Go's
    [encoding/json]: the slice is reset and one element is appended per
    element of the JSON array, each decoded from the zero value of the
    element type; [null] gives the nil slice (the empty list); any other
    JSON value is a type error. *)
Module slices.

Fixpoint decode_elements (k : kind) (elems : list json) : error + list gval :=
  match elems with
  | [] => inr []
  | v :: rest =>
      match decode_value k v (zero k) with
      | inl e => inl e
      | inr g =>
          match decode_elements k rest with
          | inl e => inl e
          | inr gs => inr (g :: gs)
          end
      end
  end.

Definition unmarshal_slice (k : kind) (v : json) : error + list gval :=
  match v with
  | JNull => inr []
  | JArray elems => decode_elements k elems
  | _ => inl UnmarshalTypeError
  end.



(** An element of a [[]*T]: the pointer, [None] being nil. *)
Definition pointer_of (g : gval) : option store :=
  match g with
  | VPtr p => p
  | _ => None
  end.

End slices.
Import slices.







(** [WsCombinedMarkPriceForAllServe]: [data := j.Get("data")] is marshalled
    (a [*Json] marshals its tree, nil as [null]) and unmarshalled into a
    [WsMarkPriceForAllEvent], a [[]*WsMarkPriceEvent]. *)
Definition WsCombinedMarkPriceForAllServe_wsHandler (message : string)
  : outcome (list (option WsMarkPriceEvent.t)) :=
  match newJSON message with
  | inl err => ErrHandler err
  | inr j =>
      let data := Get j "data" in
      match unmarshal_slice (KPtr WsMarkPriceEvent.fields) (remarshal data)
      with
      | inl err => ErrHandler err
      | inr gs =>
          Handler
            (map (fun g => option_map WsMarkPriceEvent.of_store (pointer_of g))
               gs)
      end
  end.

(** [WsDepthServe], [WsDepthServe100Ms], [WsCombinedDepthServe] and
    [WsCombinedDepthServe100Ms] register the closures of [wsDepthServe] and
    [wsCombinedDepthServe]. *)
Definition WsDepthServe_wsHandler (symbol : string)
  : string -> outcome WsDepthEvent.t := wsDepthServe_wsHandler.

Definition WsDepthServe100Ms_wsHandler (symbol : string)
  : string -> outcome WsDepthEvent.t := wsDepthServe_wsHandler.

Definition WsCombinedDepthServe_wsHandler (symbols : list string)
  : string -> outcome WsDepthEvent.t := wsCombinedDepthServe_wsHandler.

Definition WsCombinedDepthServe100Ms_wsHandler (symbols : list string)
  : string -> outcome WsDepthEvent.t := wsCombinedDepthServe_wsHandler.

(** ** Views used to state the properties *)

(** The event the success handler received, if it ran. *)
Definition handled {E : Type} (o : outcome E) : option E :=
  match o with
  | Handler e => Some e
  | _ => None
  end.

Definition map_outcome {E F : Type} (f : E -> F) (o : outcome E) : outcome F :=
  match o with
  | Handler e => Handler (f e)
  | ErrHandler err => ErrHandler err
  | Panic p => Panic p
  end.

(** The stream kinds that have a combined-mode decoder with a symbol. *)
Inductive stream_kind : Type :=
| PartialDepth
| Depth
| Kline
| AggTrade
| Trade
| MarketStat.

(** The symbol of the event a combined-mode decoder delivers. *)
Definition combined_Symbol (k : stream_kind) (message : string)
  : outcome string :=
  match k with
  | PartialDepth =>
      map_outcome WsPartialDepthEvent.Symbol
        (WsCombinedPartialDepthServe_wsHandler message)
  | Depth =>
      map_outcome WsDepthEvent.Symbol (wsCombinedDepthServe_wsHandler message)
  | Kline =>
      map_outcome WsKlineEvent.Symbol (WsCombinedKlineServe_wsHandler message)
  | AggTrade =>
      map_outcome WsAggTradeEvent.Symbol
        (WsCombinedAggTradeServe_wsHandler message)
  | Trade =>
      map_outcome
        (fun e => WsTradeEvent.Symbol (WsCombinedTradeEvent.Data e))
        (WsCombinedTradeServe_wsHandler message)
  | MarketStat =>
      map_outcome WsMarketStatEvent.Symbol
        (WsCombinedMarketStatServe_wsHandler message)
  end.

(** The stream name of a combined envelope, as the untyped decoders read it. *)
Definition envelope_stream (message : string) : string :=
  match newJSON message with
  | inr j => MustString (Get j "stream")
  | inl _ => EmptyString
  end.

(** The portion of [s] before the first [c], in the words of the
    specification. *)
Fixpoint before_first (c : ascii) (s : string) : string :=
  match s with
  | EmptyString => EmptyString
  | String d r => if Ascii.eqb d c then EmptyString
                  else String d (before_first c r)
  end.

(** The symbol the envelope names: the portion of the stream name before
    the first [@], in upper case. *)
Definition envelope_symbol (message : string) : string :=
  ToUpper (before_first "@" (envelope_stream message)).

(** The combined-stream URL builders, listed. *)
Inductive combined_builder : Type :=
| CombinedPartialDepth
| CombinedDepth
| CombinedDepth100Ms
| CombinedKline
| CombinedAggTrade
| CombinedTrade
| CombinedMarketStat
| CombinedBookTicker.

(** The URL a combined builder produces for the entries (symbol, parameter)
    of its argument; the builders that take a slice of symbols read the
    symbols only. *)
Definition combined_endpoint (UseTestnet : bool) (b : combined_builder)
    (entries : list (string * string)) : option string :=
  match b with
  | CombinedPartialDepth =>
      WsCombinedPartialDepthServe_endpoint UseTestnet entries
  | CombinedDepth =>
      WsCombinedDepthServe_endpoint UseTestnet (map fst entries)
  | CombinedDepth100Ms =>
      WsCombinedDepthServe100Ms_endpoint UseTestnet (map fst entries)
  | CombinedKline => WsCombinedKlineServe_endpoint UseTestnet entries
  | CombinedAggTrade =>
      WsCombinedAggTradeServe_endpoint UseTestnet (map fst entries)
  | CombinedTrade =>
      WsCombinedTradeServe_endpoint UseTestnet (map fst entries)
  | CombinedMarketStat =>
      WsCombinedMarketStatServe_endpoint UseTestnet (map fst entries)
  | CombinedBookTicker =>
      WsCombinedBookTickerServe_endpoint (map fst entries)
  end.

(** The base endpoint a combined builder starts from. *)
Definition combined_base (UseTestnet : bool) (b : combined_builder) : string :=
  match b with
  | CombinedBookTicker => baseCombinedMainURL
  | _ => getCombinedEndpoint UseTestnet
  end.

(** The stream suffixes of the specification's URL table. *)
Definition stream_suffix (b : combined_builder) (param : string) : string :=
  match b with
  | CombinedPartialDepth => "depth" ++ param
  | CombinedDepth => "depth"
  | CombinedDepth100Ms => "depth@100ms"
  | CombinedKline => "kline_" ++ param
  | CombinedAggTrade => "aggTrade"
  | CombinedTrade => "trade"
  | CombinedMarketStat => "ticker"
  | CombinedBookTicker => "bookTicker"
  end.

(** The descriptor [<lowercased-symbol>@<stream-suffix>] of the
    specification. *)
Definition descriptor (b : combined_builder) (entry : string * string)
  : string :=
  ToLower (fst entry) ++ "@" ++ stream_suffix b (snd entry).

(** The builders whose descriptor carries a parameter of the caller (the
    depth level, the kline interval). *)
Definition takes_parameter (b : combined_builder) : bool :=
  match b with
  | CombinedPartialDepth | CombinedKline => true
  | _ => false
  end.

(** An entry that brings no [/] of its own into the URL. *)
Definition slash_free (b : combined_builder) (entry : string * string)
  : Prop :=
  contains_byte "/" (fst entry) = false /\
  contains_byte "/" (stream_suffix b (snd entry)) = false.



(** A run that succeeds consumes text, and succeeds alike with any fuel
    that covers what it consumed. *)
Definition fuel_enough (run : nat -> option (json * string)) (s : string)
    (f : nat) : Prop :=
  forall v r, run f = Some (v, r) ->
    (String.length r < String.length s)%nat /\
    forall f', (String.length s - String.length r <= f')%nat ->
               run f' = Some (v, r).

(** ** Well-formed depth data

    What the unchecked reads of the combined depth decoders need of the
    envelope's [data]. *)

Definition is_string (v : json) : bool :=
  match v with JString _ => true | _ => false end.

Definition is_number (v : json) : bool :=
  match v with JNumber _ => true | _ => false end.

(** A level: an array that starts with two strings. *)
Definition level_ok (elem : json) : bool :=
  match elem with
  | JArray (JString _ :: JString _ :: _) => true
  | _ => false
  end.

(** A side of the book: an array of levels. *)
Definition side_ok (v : json) : bool :=
  match v with
  | JArray elems => forallb level_ok elems
  | _ => false
  end.

Definition depth_data_ok (data : list (string * json)) : bool :=
  (is_string (map_get data "e")
   && is_number (map_get data "E")
   && is_number (map_get data "u")
   && is_number (map_get data "U")
   && match map_index data "pu" with
      | Some v => is_number v
      | None => true
      end
   && side_ok (map_get data "b")
   && side_ok (map_get data "a"))%bool.

Definition partial_depth_data_ok (data : list (string * json)) : bool :=
  (is_number (map_get data "lastUpdateId")
   && side_ok (map_get data "bids")
   && side_ok (map_get data "asks"))%bool.

(** The number a combined decoder reads from a value it has asserted to be
    a [json.Number]. *)
Definition Int64_of (v : json) : Z :=
  match v with
  | JNumber text => Number_Int64 text
  | _ => 0%Z
  end.

(** The event the combined depth decoder builds from well-formed data. *)
Definition depth_event_of (stream : string) (data : list (string * json))
  : WsDepthEvent.t :=
  {| WsDepthEvent.Event := MustString (map_get data "e");
     WsDepthEvent.Time := Int64_of (map_get data "E");
     WsDepthEvent.Symbol := ToUpper (before_first "@" stream);
     WsDepthEvent.LastUpdateID := Int64_of (map_get data "u");
     WsDepthEvent.FirstUpdateID := Int64_of (map_get data "U");
     WsDepthEvent.LastUpdateIDInLastStream := Int64_of (map_get data "pu");
     WsDepthEvent.Bids := flat_levels (map_get data "b");
     WsDepthEvent.Asks := flat_levels (map_get data "a") |}.

(** The event the combined partial depth decoder builds from well-formed
    data. *)
Definition partial_depth_event_of (stream : string)
    (data : list (string * json)) : WsPartialDepthEvent.t :=
  {| WsPartialDepthEvent.Symbol := ToUpper (before_first "@" stream);
     WsPartialDepthEvent.LastUpdateID :=
       Int64_of (map_get data "lastUpdateId");
     WsPartialDepthEvent.Bids := flat_levels (map_get data "bids");
     WsPartialDepthEvent.Asks := flat_levels (map_get data "asks") |}.

(** The level an element of a book side reads as, with the defaulting
    accessors. *)
Definition level_of (item : json) : PriceLevel :=
  {| Price := MustString (GetIndex item 0);
     Quantity := MustString (GetIndex item 1) |}.

(** The members of a struct, decoded in document order into the store
    [st]: the loop of [decode_value] over the members of an object. *)
Fixpoint decode_members (fields : list (string * kind))
    (ms : list (string * json)) (st : store) : error + store :=
  match ms with
  | [] => inr st
  | (key, v) :: rest =>
      match find_field fields key with
      | None => decode_members fields rest st
      | Some (tag, k) =>
          let cur :=
            match lookup st tag with
            | Some g => g
            | None => zero k
            end in
          match decode_value k v cur with
          | inl e => inl e
          | inr g => decode_members fields rest (update st tag g)
          end
      end
  end.

(** The JSON value of a field type: what [decode_value] accepts for it,
    [null] apart. *)
Definition fits (k : kind) (v : json) : bool :=
  match k, v with
  | KString, JString _ => true
  | KInt64, JNumber text => negb (snd (ParseInt text))
  | KBool, JBool _ => true
  | _, _ => false
  end.

(** The value a scalar field takes from a JSON value that fits it. *)
Definition scalar_of (v : json) : gval :=
  match v with
  | JString s => VString s
  | JNumber text => VInt (fst (ParseInt text))
  | JBool b => VBool b
  | _ => VBool false
  end.

(** A key that selects the field of its own name, or no field: it does
    not reach another field through case folding. *)
Definition resolves_exactly (fields : list (string * kind)) (key : string)
  : bool :=
  match find_field fields key with
  | Some (tag, _) => String.eqb tag key
  | None => true
  end.

(** The field types that hold one scalar. *)
Definition is_scalar (k : kind) : bool :=
  match k with
  | KString | KInt64 | KBool => true
  | _ => false
  end.

(** How an element of a pushed array reads as an element of a [[]*T]:
    [null] as the nil pointer, an object as the struct decoded from its
    members. *)
Definition reads_pointer {E : Type} (fields : list (string * kind))
    (of_store : store -> E) (elem : json) (ev : option E) : Prop :=
  (elem = JNull /\ ev = None) \/
  (exists ms st, elem = JObject ms /\
                 decode_members fields ms [] = inr st /\
                 ev = Some (of_store st)).


(** A document that [Unmarshal] accepts for a slice. *)
Definition null_or_array (doc : json) : bool :=
  match doc with
  | JNull | JArray _ => true
  | _ => false
  end.

(** ** Reading a JSON record by key

    In the words of the specification: what a field mapped from a JSON key
    holds. The member under the key is looked up in the record itself (for
    a key written twice, the later member); a record that is not an object
    has no members. *)

Definition member_of (record : json) (key : string) : option json :=
  match record with
  | JObject members => map_index members key
  | _ => None
  end.

(** The string under the key; empty when the key is missing or holds
    another kind of value. *)
Definition string_at (record : json) (key : string) : string :=
  match member_of record key with
  | Some (JString s) => s
  | _ => EmptyString
  end.

(** The integer under the key; 0 when the key is missing, holds another
    kind of value, or holds a number that is no integer of the int64
    range. *)
Definition int64_at (record : json) (key : string) : Z :=
  match member_of record key with
  | Some (JNumber text) =>
      if snd (ParseInt text) then 0%Z else fst (ParseInt text)
  | _ => 0%Z
  end.

(** Does every byte of the string lie in the ASCII range? On such strings
    [ToLower] and [ToUpper] are Go's [strings.ToLower] and
    [strings.ToUpper]. *)
Definition ascii_only (s : string) : bool :=
  forallb (fun c => N.ltb (N_of_ascii c) 128) (list_ascii_of_string s).

(** ** Sample messages *)

(** A depth envelope whose data names another symbol. *)
Definition depth_envelope : string :=
  lit "{'stream':'btcusdt@depth','data':{'e':'depthUpdate','E':1571889248277,'T':1571889248276,'s':'ETHUSDT','U':390497796,'u':390497878,'pu':390497794,'b':[['7403.89','0.002']],'a':[['7405.96','3.340'],['7406.63','4.525']]}}".

(** The envelope of the specification, with another symbol inside [data]. *)
Definition trade_envelope : string :=
  lit "{'stream':'btcusdt@trade','data':{'e':'trade','E':123456789,'s':'ETHUSDT','t':12345,'p':'0.001','q':'100','b':88,'a':50,'T':123456785,'m':true,'M':true}}".

(** Depth data without bids and asks. *)
Definition depth_envelope_no_levels : string :=
  lit "{'stream':'btcusdt@depth','data':{'e':'depthUpdate','E':1571889248277,'s':'BTCUSDT','U':390497796,'u':390497878}}".

(** Partial depth data whose update ID is a string. *)
Definition partial_depth_envelope_text_id : string :=
  lit "{'stream':'btcusdt@depth5','data':{'lastUpdateId':'160','bids':[['0.0024','10']],'asks':[['0.0026','100']]}}".

(** A futures depth update with [pu], one without, one with [pu] at 0. *)
Definition depth_message_pu : string :=
  lit "{'e':'depthUpdate','E':1571889248277,'s':'BTCUSDT','U':390497796,'u':390497878,'pu':390497794,'b':[['7403.89','0.002']],'a':[['7405.96','3.340']]}".

Definition depth_message_no_pu : string :=
  lit "{'e':'depthUpdate','E':1571889248277,'s':'BTCUSDT','U':390497796,'u':390497878,'b':[['7403.89','0.002']],'a':[['7405.96','3.340']]}".

Definition depth_message_pu_zero : string :=
  lit "{'e':'depthUpdate','E':1571889248277,'s':'BTCUSDT','U':390497796,'u':390497878,'pu':0,'b':[['7403.89','0.002']],'a':[['7405.96','3.340']]}".



(** A partial depth snapshot. *)
Definition partial_depth_message : string :=
  lit "{'lastUpdateId':160,'bids':[['0.0024','10']],'asks':[['0.0026','100']]}".

(** The literal flat-mode trade message of the specification. *)
Definition trade_message : string :=
  lit "{'e':'trade','E':123456789,'s':'BNBBTC','t':12345,'p':'0.001','q':'100','b':88,'a':50,'T':123456785,'m':true,'M':true}".

(** A response body with two index records. *)
Definition asset_index_body : string :=
  lit "[{'symbol':'ADAUSD','time':1635740268004,'index':'1.92957370','bidBuffer':'0.10000000','askBuffer':'0.12000000','bidRate':'1.73661633','askRate':'2.12253107','autoExchangeBidBuffer':'0.05000000','autoExchangeAskBuffer':'0.06000000','autoExchangeBidRate':'1.83309501','autoExchangeAskRate':'2.02605238'},{'symbol':'USDTUSD','time':1635740268004,'index':'1.00061338'}]".

(** An envelope without [data]. *)
Definition book_ticker_envelope_no_data : string :=
  lit "{'stream':'btcusdt@bookTicker'}".

(** A combined partial depth envelope. *)
Definition partial_depth_envelope : string :=
  lit "{'stream':'btcusdt@depth5','data':{'lastUpdateId':160,'bids':[['0.0024','10']],'asks':[['0.0026','100'],['0.0027','7']]}}".

(** A depth update whose last update ID is 2^63. *)
Definition depth_message_huge_id : string :=
  lit "{'e':'depthUpdate','E':1571889248277,'s':'BTCUSDT','U':390497796,'u':9223372036854775808,'b':[],'a':[]}".

(** A combined aggTrade envelope. *)
Definition aggtrade_envelope : string :=
  lit "{'stream':'btcusdt@aggTrade','data':{'e':'aggTrade','E':123456789,'s':'BTCUSDT','a':12345,'p':'0.001','q':'100','f':100,'l':105,'T':123456785,'m':true,'M':true}}".


(** A mark price push for all symbols, with one record. *)
Definition mark_price_envelope : string :=
  lit "{'stream':'!markPrice@arr','data':[{'e':'markPriceUpdate','E':1562305380000,'s':'BTCUSDT','p':'11185.87786614','i':'11784.62659091','P':'11784.25641265','r':'0.00030000','T':1562306400000}]}".


(** An error body of the REST API. *)
Definition asset_index_error_body : string :=
  lit "{'code':-1121,'msg':'Invalid symbol.'}".

(** * Properties *)

(** ** Strings *)

Section StringFacts.

Lemma append_assoc (a b c : string) : (a ++ b) ++ c = a ++ (b ++ c).
Proof. induction a as [|x a IH]; simpl; [reflexivity|now rewrite IH]. Qed.

Lemma append_nil_r (a : string) : a ++ "" = a.
Proof. induction a as [|x a IH]; simpl; [reflexivity|now rewrite IH]. Qed.

Lemma slice_drop_last_snoc (s : string) (c : ascii) :
  slice_drop_last (s ++ String c "") = Some s.
Proof.
  induction s as [|x s IH]; simpl; [reflexivity|].
  rewrite IH. destruct s; reflexivity.
Qed.

Lemma prefix_append (p s : string) : String.prefix p (p ++ s) = true.
Proof.
  induction p as [|x p IH]; simpl.
  - destruct s; reflexivity.
  - destruct (ascii_dec x x) as [_|n]; [exact IH|now destruct n].
Qed.

Lemma last_byte_append (a b : string) :
  b <> "" -> last_byte (a ++ b) = last_byte b.
Proof.
  intros Hb. induction a as [|x a IH]; simpl; [reflexivity|].
  rewrite IH. destruct (a ++ b) eqn:E; [|reflexivity].
  destruct a; simpl in E; [contradiction|discriminate].
Qed.

Lemma contains_byte_append (c : ascii) (a b : string) :
  contains_byte c (a ++ b) = (contains_byte c a || contains_byte c b)%bool.
Proof.
  induction a as [|x a IH]; simpl; [reflexivity|].
  rewrite IH. now rewrite orb_assoc.
Qed.

Lemma lower_slash (c : ascii) :
  Ascii.eqb "/" (lower c) = Ascii.eqb "/" c.
Proof. destruct c as [[] [] [] [] [] [] [] []]; reflexivity. Qed.

Lemma contains_slash_ToLower (s : string) :
  contains_byte "/" (ToLower s) = contains_byte "/" s.
Proof.
  induction s as [|x s IH]; [reflexivity|].
  cbn [ToLower contains_byte]. now rewrite IH, lower_slash.
Qed.

Lemma last_byte_not_contained (c : ascii) (s : string) :
  contains_byte c s = false -> last_byte s <> Some c.
Proof.
  induction s as [|x s IH]; simpl; [discriminate|].
  intros H. apply orb_false_iff in H as [Hx Hs].
  destruct s as [|y s].
  - intros E. injection E as ->. now rewrite Ascii.eqb_refl in Hx.
  - now apply IH.
Qed.

(** [strings.Split(s, sep)[0]] is the portion of [s] before the first
    separator. *)
Lemma first_segment_before_first (s : string) (c : ascii) :
  first_segment s c = before_first c s.
Proof.
  unfold first_segment. induction s as [|d s IH]; [reflexivity|].
  cbn [Split before_first]. destruct (Ascii.eqb d c); [reflexivity|].
  destruct (Split s c); simpl in *; now rewrite IH.
Qed.

Lemma before_first_prefix (s : string) (c : ascii) :
  contains_byte c (before_first c s) = false /\
  (s = before_first c s \/
   exists rest, s = before_first c s ++ String c rest).
Proof.
  induction s as [|d s [IH1 IH2]]; [split; [reflexivity|now left]|].
  cbn [before_first]. destruct (Ascii.eqb d c) eqn:E.
  - split; [reflexivity|]. right. exists s.
    apply Ascii.eqb_eq in E. now subst.
  - cbn [contains_byte]. rewrite Ascii.eqb_sym, E, IH1. split; [reflexivity|].
    destruct IH2 as [IH2|[rest IH2]].
    + left. now rewrite <- IH2.
    + right. exists rest. simpl. now rewrite <- IH2.
Qed.

(** Splitting a piece that holds no separator gives the piece back. *)
Lemma Split_no_sep (c : ascii) (s : string) :
  contains_byte c s = false -> Split s c = [s].
Proof.
  induction s as [|x s IH]; simpl; [reflexivity|].
  intros H. apply orb_false_iff in H as [Hx Hs].
  rewrite Ascii.eqb_sym, Hx, (IH Hs). reflexivity.
Qed.

Lemma Split_append_sep (c : ascii) (a b : string) :
  contains_byte c a = false ->
  Split (a ++ String c b) c = a :: Split b c.
Proof.
  induction a as [|x a IH]; simpl.
  - now rewrite Ascii.eqb_refl.
  - intros H. apply orb_false_iff in H as [Hx Ha].
    rewrite Ascii.eqb_sym, Hx, (IH Ha). reflexivity.
Qed.

(** [Split] undoes [String.concat] on pieces free of the separator. *)
Lemma Split_concat (c : ascii) (l : list string) :
  l <> [] ->
  Forall (fun s => contains_byte c s = false) l ->
  Split (String.concat (String c "") l) c = l.
Proof.
  induction l as [|a l IH]; [contradiction|].
  intros _ Hall. inversion Hall as [|? ? Ha Hl]; subst.
  destruct l as [|a' l]; simpl.
  - now apply Split_no_sep.
  - rewrite Split_append_sep by assumption.
    f_equal. apply IH; [discriminate|assumption].
Qed.

Lemma concat_snoc_suffix (sep : string) (l : list string) (d : string) :
  exists pre, String.concat sep (l ++ [d])%list = pre ++ d.
Proof.
  induction l as [|a l [pre IH]].
  - now exists "".
  - change ((a :: l) ++ [d])%list with (a :: (l ++ [d]))%list.
    cbn [String.concat]. rewrite IH.
    destruct (l ++ [d])%list eqn:E; [now destruct l|].
    exists (a ++ sep ++ pre). now rewrite !append_assoc.
Qed.

End StringFacts.

(** ** JSON text: the fuel of the parser *)

Section Fuel.

Local Open Scope nat_scope.
Abbreviation len := String.length.

Lemma skip_ws_length s : len (skip_ws s) <= len s.
Proof.
  induction s as [|c s IH]; simpl; [lia|].
  destruct (is_space c); simpl; lia.
Qed.

Lemma scan_digits_length s ds r : scan_digits s = (ds, r) -> len r <= len s.
Proof.
  revert ds r. induction s as [|c s IH]; simpl; intros ds r H.
  - inversion H; simpl; lia.
  - destruct (is_digit c).
    + destruct (scan_digits s) as [ds' r'] eqn:E. inversion H; subst.
      specialize (IH _ _ eq_refl). lia.
    + inversion H; subst; simpl; lia.
Qed.

Lemma scan_digits1_length s ds r : scan_digits1 s = Some (ds, r) -> len r <= len s.
Proof.
  unfold scan_digits1. destruct (scan_digits s) as [ds' r'] eqn:E.
  destruct ds'; intros H; inversion H; subst.
  eapply scan_digits_length; eassumption.
Qed.

Lemma scan_int_length s t r : scan_int s = Some (t, r) -> len r < len s.
Proof.
  destruct s as [|c s]; simpl; [discriminate|].
  destruct (Ascii.eqb c "0").
  - intros H; inversion H; subst; lia.
  - destruct (is_digit c); [|discriminate].
    destruct (scan_digits s) as [ds r'] eqn:E. intros H; inversion H; subst.
    apply scan_digits_length in E. lia.
Qed.

Lemma scan_frac_length s t r : scan_frac s = Some (t, r) -> len r <= len s.
Proof.
  destruct s as [|c s]; simpl.
  - intros H; inversion H; simpl; lia.
  - destruct (Ascii.eqb c ".").
    + destruct (scan_digits1 s) as [[ds r']|] eqn:E; [|discriminate].
      intros H; inversion H; subst. apply scan_digits1_length in E. lia.
    + intros H; inversion H; subst; simpl; lia.
Qed.

Lemma scan_exp_length s t r : scan_exp s = Some (t, r) -> len r <= len s.
Proof.
  destruct s as [|c s]; simpl.
  - intros H; inversion H; simpl; lia.
  - destruct (Ascii.eqb c "e" || Ascii.eqb c "E")%bool.
    + destruct (scan_sign s) as [sg r1] eqn:Es.
      destruct (scan_digits1 r1) as [[ds r']|] eqn:E; [|discriminate].
      intros H; inversion H; subst. apply scan_digits1_length in E.
      assert (len r1 <= len s).
      { destruct s as [|d s]; simpl in Es.
        - inversion Es; simpl; lia.
        - destruct (Ascii.eqb d "+" || Ascii.eqb d "-")%bool;
            inversion Es; subst; simpl; lia. }
      lia.
    + intros H; inversion H; subst; simpl; lia.
Qed.

Lemma scan_number_length s t r : scan_number s = Some (t, r) -> len r < len s.
Proof.
  unfold scan_number.
  destruct (match s with
            | String c r0 => if Ascii.eqb c "-" then ("-", r0) else (EmptyString, s)
            | EmptyString => (EmptyString, s)
            end) as [sg s1] eqn:E0.
  assert (H1 : len s1 <= len s).
  { destruct s as [|c s]; [inversion E0; simpl; lia|].
    destruct (Ascii.eqb c "-"); inversion E0; subst; simpl; lia. }
  destruct (scan_int s1) as [[ip s2]|] eqn:E1; [|discriminate].
  destruct (scan_frac s2) as [[fp s3]|] eqn:E2; [|discriminate].
  destruct (scan_exp s3) as [[ep s4]|] eqn:E3; [|discriminate].
  intros H; inversion H; subst.
  apply scan_int_length in E1. apply scan_frac_length in E2.
  apply scan_exp_length in E3. lia.
Qed.

Lemma cons_unit_Some u o us r :
  cons_unit u o = Some (us, r) -> exists us', o = Some (us', r).
Proof. destruct o as [[us' r']|]; simpl; intros H; inversion H. now eexists. Qed.

Lemma scan_string_length s : forall us r, scan_string s = Some (us, r) -> len r < len s.
Proof.
  induction s as [s IH] using (well_founded_induction
    (Wf_nat.well_founded_ltof _ String.length)).
  unfold Wf_nat.ltof in IH.
  intros us r H. destruct s as [|c s]; simpl in H; [discriminate|].
  destruct (Ascii.eqb c dquote); [inversion H; subst; simpl; lia|].
  destruct (Ascii.eqb c "\").
  - destruct s as [|e s]; [discriminate|].
    destruct (Ascii.eqb e "u").
    + destruct s as [|h1 [|h2 [|h3 [|h4 s]]]]; try discriminate.
      destruct (hex4 h1 h2 h3 h4); [|discriminate].
      apply cons_unit_Some in H as [us' H].
      apply IH in H; simpl in *; lia.
    + destruct (escape_byte e); [|discriminate].
      apply cons_unit_Some in H as [us' H].
      apply IH in H; simpl in *; lia.
  - destruct (N_of_ascii c <? 32)%N; [discriminate|].
    apply cons_unit_Some in H as [us' H].
    apply IH in H; simpl in *; lia.
Qed.

Lemma scan_literal_length w : forall s r, scan_literal w s = Some r -> len r <= len s.
Proof.
  induction w as [|c w IH]; simpl; intros s r H.
  - inversion H; lia.
  - destruct s as [|d s]; [discriminate|].
    destruct (Ascii.eqb c d); [|discriminate].
    apply IH in H. simpl; lia.
Qed.

Lemma literal_length v w s v' r : literal v w s = Some (v', r) -> len r <= len s.
Proof.
  unfold literal. destruct (scan_literal w s) eqn:E; [|discriminate].
  intros H; inversion H; subst. eapply scan_literal_length; eassumption.
Qed.

Ltac use_eqns :=
  repeat match goal with
         | H : ?x = _ |- context [?x] => rewrite H
         end.

Lemma parse_fuel (f : nat) :
  (forall s, fuel_enough (fun f => parse_value f s) s f) /\
  (forall s acc, fuel_enough (fun f => parse_elements f s acc) s f) /\
  (forall s acc, fuel_enough (fun f => parse_members f s acc) s f).
Proof.
  induction f as [|f (IHv & IHe & IHm)]; unfold fuel_enough in *.
  - repeat split; discriminate.
  - split; [|split].
    + intros s v r H. simpl in H.
      pose proof (skip_ws_length s) as Hs.
      destruct (skip_ws s) as [|c s0] eqn:E0; [discriminate|]. simpl in Hs.
      destruct (Ascii.eqb c "{") eqn:Eo.
      { pose proof (skip_ws_length s0) as Hs0.
        destruct (skip_ws s0) as [|c1 s1] eqn:E1; [discriminate|].
        simpl in Hs0.
        destruct (Ascii.eqb c1 "}") eqn:Ec.
        - inversion H; subst. split; [lia|].
          intros [|f'] Hf; [lia|]. simpl. now use_eqns.
        - apply IHm in H as [Hl Hf0]. simpl in Hl. split; [lia|].
          intros [|f'] Hf; [lia|]. simpl. use_eqns.
          apply Hf0. cbn [String.length]. lia. }
      destruct (Ascii.eqb c "[") eqn:Ea.
      { pose proof (skip_ws_length s0) as Hs0.
        destruct (skip_ws s0) as [|c1 s1] eqn:E1; [discriminate|].
        simpl in Hs0.
        destruct (Ascii.eqb c1 "]") eqn:Ec.
        - inversion H; subst. split; [lia|].
          intros [|f'] Hf; [lia|]. simpl. now use_eqns.
        - apply IHe in H as [Hl Hf0]. simpl in Hl. split; [lia|].
          intros [|f'] Hf; [lia|]. simpl. use_eqns.
          apply Hf0. cbn [String.length]. lia. }
      destruct (Ascii.eqb c dquote) eqn:Eq.
      { destruct (scan_string s0) as [[us rest]|] eqn:Es; [|discriminate].
        inversion H; subst. pose proof (scan_string_length _ _ _ Es).
        split; [lia|]. intros [|f'] Hf; [lia|]. simpl. now use_eqns. }
      destruct (Ascii.eqb c "t") eqn:Et.
      { pose proof (literal_length _ _ _ _ _ H).
        split; [lia|]. intros [|f'] Hf; [lia|]. simpl. now use_eqns. }
      destruct (Ascii.eqb c "f") eqn:Ef.
      { pose proof (literal_length _ _ _ _ _ H).
        split; [lia|]. intros [|f'] Hf; [lia|]. simpl. now use_eqns. }
      destruct (Ascii.eqb c "n") eqn:En.
      { pose proof (literal_length _ _ _ _ _ H).
        split; [lia|]. intros [|f'] Hf; [lia|]. simpl. now use_eqns. }
      destruct (scan_number (String c s0)) as [[text rest]|] eqn:Es;
        [|discriminate].
      inversion H; subst. pose proof (scan_number_length _ _ _ Es) as Hn.
      cbn [String.length] in Hn. split; [lia|]. intros [|f'] Hf; [lia|]. simpl. now use_eqns.
    + intros s acc v r H. simpl in H.
      destruct (parse_value f s) as [[v1 r1]|] eqn:Ev; [|discriminate].
      apply IHv in Ev as [Hl1 Hf1].
      pose proof (skip_ws_length r1) as Hs1.
      destruct (skip_ws r1) as [|c r'] eqn:E1; [discriminate|]. simpl in Hs1.
      destruct (Ascii.eqb c ",") eqn:Ec.
      * apply IHe in H as [Hl Hf0]. split; [lia|].
        intros [|f'] Hf; [lia|]. simpl.
        rewrite Hf1 by lia. rewrite E1, Ec. apply Hf0. lia.
      * destruct (Ascii.eqb c "]") eqn:Eb; [|discriminate].
        inversion H; subst. split; [lia|].
        intros [|f'] Hf; [lia|]. simpl.
        rewrite Hf1 by lia. now rewrite E1, Ec, Eb.
    + intros s acc v r H. simpl in H.
      pose proof (skip_ws_length s) as Hs.
      destruct (skip_ws s) as [|q s0] eqn:E0; [discriminate|]. simpl in Hs.
      destruct (Ascii.eqb q dquote) eqn:Eq; [|discriminate].
      destruct (scan_string s0) as [[us r1]|] eqn:Es; [|discriminate].
      pose proof (scan_string_length _ _ _ Es) as Hl0.
      pose proof (skip_ws_length r1) as Hs1.
      destruct (skip_ws r1) as [|c2 r2] eqn:E1; [discriminate|]. simpl in Hs1.
      destruct (Ascii.eqb c2 ":") eqn:Ec; [|discriminate].
      destruct (parse_value f r2) as [[v1 r3]|] eqn:Ev; [|discriminate].
      apply IHv in Ev as [Hl1 Hf1].
      pose proof (skip_ws_length r3) as Hs3.
      destruct (skip_ws r3) as [|c4 r4] eqn:E3; [discriminate|]. simpl in Hs3.
      destruct (Ascii.eqb c4 ",") eqn:Ek.
      * apply IHm in H as [Hl Hf0]. split; [lia|].
        intros [|f'] Hf; [lia|]. simpl.
        rewrite E0, Eq, Es, E1, Ec. rewrite Hf1 by lia.
        rewrite E3, Ek. apply Hf0. lia.
      * destruct (Ascii.eqb c4 "}") eqn:Eb; [|discriminate].
        inversion H; subst. split; [lia|].
        intros [|f'] Hf; [lia|]. simpl.
        rewrite E0, Eq, Es, E1, Ec. rewrite Hf1 by lia.
        now rewrite E3, Ek, Eb.
Qed.

(** Fuel is never what stops the parser: with any fuel above the length of
    the text it gives what [parse_prefix] gives. *)
Theorem parse_value_fuel (s : string) (f : nat) :
  len s < f -> parse_value f s = parse_prefix s.
Proof.
  intros Hf. unfold parse_prefix.
  destruct (parse_value (S (len s)) s) as [[v r]|] eqn:E1.
  - apply (proj1 (parse_fuel _)) in E1 as [_ H]. apply H. lia.
  - destruct (parse_value f s) as [[v r]|] eqn:E2; [|reflexivity].
    apply (proj1 (parse_fuel _)) in E2 as [_ H].
    rewrite H in E1 by lia. discriminate.
Qed.
End Fuel.

(** ** Stream URLs *)

Section StreamURLs.

Context {A : Type} (descr : A -> string).

(** The builder's loop leaves the joined descriptors and one more [/]. *)
Lemma fold_left_streams (xs : list A) (base : string) :
  xs <> [] ->
  fold_left (fun endpoint x => endpoint ++ (descr x ++ "/")) xs base
  = (base ++ String.concat "/" (map descr xs)) ++ "/".
Proof.
  revert base. induction xs as [|x xs IH]; intros base Hne.
  - contradiction.
  - destruct xs as [|y xs].
    + simpl. now rewrite append_assoc.
    + change (fold_left _ (x :: y :: xs) base)
        with (fold_left
                (fun endpoint x => endpoint ++ (descr x ++ "/"))
                (y :: xs) (base ++ (descr x ++ "/"))).
      rewrite IH by discriminate.
      change (String.concat "/" (map descr (x :: y :: xs)))
        with (descr x ++ "/" ++ String.concat "/" (map descr (y :: xs))).
      now rewrite !append_assoc.
Qed.

Lemma join_streams_nonempty (base : string) (xs : list A) :
  xs <> [] ->
  join_streams base descr xs
  = Some (base ++ String.concat "/" (map descr xs)).
Proof.
  intros Hne. unfold join_streams.
  rewrite fold_left_streams by assumption.
  apply slice_drop_last_snoc.
Qed.

Lemma join_streams_nil (base : string) :
  join_streams base descr [] = slice_drop_last base.
Proof. reflexivity. Qed.

End StreamURLs.

Lemma map_fst_nonempty {A B : Type} (l : list (A * B)) :
  l <> [] -> map fst l <> [].
Proof. destruct l; [contradiction|discriminate]. Qed.

Lemma combined_endpoint_joined (UseTestnet : bool) (b : combined_builder)
    (entries : list (string * string)) :
  entries <> [] ->
  combined_endpoint UseTestnet b entries
  = Some (combined_base UseTestnet b
            ++ String.concat "/" (map (descriptor b) entries)).
Proof.
  intros Hne. pose proof (map_fst_nonempty entries Hne) as Hne'.
  destruct b; cbn [combined_endpoint combined_base];
    unfold WsCombinedPartialDepthServe_endpoint,
      WsCombinedDepthServe_endpoint, WsCombinedDepthServe100Ms_endpoint,
      WsCombinedKlineServe_endpoint, WsCombinedAggTradeServe_endpoint,
      WsCombinedTradeServe_endpoint, WsCombinedMarketStatServe_endpoint,
      WsCombinedBookTickerServe_endpoint;
    rewrite join_streams_nonempty by assumption;
    rewrite ?map_map; reflexivity.
Qed.

Lemma descriptor_nonempty (b : combined_builder) (entry : string * string) :
  descriptor b entry <> "".
Proof. unfold descriptor. destruct (ToLower (fst entry)); discriminate. Qed.

Lemma descriptor_slash_free (b : combined_builder) (entry : string * string) :
  slash_free b entry -> contains_byte "/" (descriptor b entry) = false.
Proof.
  intros [Hs Hp]. unfold descriptor.
  rewrite !contains_byte_append, contains_slash_ToLower, Hs, Hp.
  reflexivity.
Qed.

Lemma last_byte_descriptor (b : combined_builder) (entry : string * string) :
  last_byte (descriptor b entry) = last_byte (stream_suffix b (snd entry)).
Proof.
  unfold descriptor. rewrite last_byte_append.
  - apply (last_byte_append "@"). destruct b; discriminate.
  - discriminate.
Qed.

Lemma fixed_suffix_last_byte (b : combined_builder) (param : string) :
  takes_parameter b = false ->
  last_byte (stream_suffix b param) <> Some "/"%char.
Proof. destruct b; simpl; intros H; discriminate. Qed.

(** C4. For every non-empty collection of symbols, each combined-stream URL
    builder produces its base endpoint followed by one descriptor
    [<lowercased-symbol>@<stream-suffix>] per symbol, joined with [/]. No
    descriptor is empty; the URL does not end in [/] (for the builders that
    take a depth level or a kline interval: when the caller's entries hold
    no [/] themselves); and for entries that hold no [/] themselves the
    [/]-separated segments are exactly the descriptors. For the empty
    collection the builder returns a URL all the same, the base endpoint
    with its last byte cut off, which no longer starts with the base
    endpoint. *)
Theorem combined_url_is_joined_descriptors :
  forall (UseTestnet : bool) (b : combined_builder),
    (forall entries : list (string * string),
        entries <> [] ->
        let streams := String.concat "/" (map (descriptor b) entries) in
        combined_endpoint UseTestnet b entries
        = Some (combined_base UseTestnet b ++ streams) /\
        Forall (fun d => d <> "") (map (descriptor b) entries) /\
        (takes_parameter b = false \/ Forall (slash_free b) entries ->
         last_byte (combined_base UseTestnet b ++ streams)
         <> Some "/"%char) /\
        (Forall (slash_free b) entries ->
         Split streams "/" = map (descriptor b) entries))
    /\
    (exists url : string,
        combined_endpoint UseTestnet b [] = Some url /\
        slice_drop_last (combined_base UseTestnet b) = Some url /\
        HasPrefix url (combined_base UseTestnet b) = false).
Proof.
  intros UseTestnet b. split.
  - intros entries Hne streams.
    assert (Hne' : map (descriptor b) entries <> [])
      by (destruct entries; [contradiction|discriminate]).
    split; [now apply combined_endpoint_joined|].
    split; [|split].
    + apply Forall_map, Forall_forall. intros e _.
      apply descriptor_nonempty.
    + intros Hcase.
      destruct (exists_last Hne') as (l & d & Hl).
      assert (Hin : In d (map (descriptor b) entries))
        by (rewrite Hl; apply in_or_app; right; now left).
      apply in_map_iff in Hin as (e & <- & Hin).
      subst streams. rewrite Hl.
      destruct (concat_snoc_suffix "/" l (descriptor b e)) as [pre ->].
      rewrite <- append_assoc, last_byte_append
        by apply descriptor_nonempty.
      destruct Hcase as [Hfixed|Hfree].
      * rewrite last_byte_descriptor. now apply fixed_suffix_last_byte.
      * apply last_byte_not_contained, descriptor_slash_free.
        rewrite Forall_forall in Hfree. now apply Hfree.
    + intros Hfree. apply Split_concat; [assumption|].
      apply Forall_map. eapply Forall_impl; [|exact Hfree].
      intros e. apply descriptor_slash_free.
  - destruct UseTestnet, b; eexists; repeat split.
Qed.

(** The claim's example, and the empty collection, run through the theorem. *)
Lemma combined_url_is_joined_descriptors_witness :
  WsCombinedDepthServe_endpoint false ["BTCUSDT"; "ETHUSDT"]
  = Some "wss://fstream.binance.com/stream?streams=btcusdt@depth/ethusdt@depth"
  /\ last_byte
       "wss://fstream.binance.com/stream?streams=btcusdt@depth/ethusdt@depth"
     <> Some "/"%char
  /\ Split "btcusdt@depth/ethusdt@depth" "/"
     = ["btcusdt@depth"; "ethusdt@depth"].
Proof.
  pose proof (proj1 (combined_url_is_joined_descriptors false CombinedDepth)
                [("BTCUSDT", ""); ("ETHUSDT", "")]
                ltac:(discriminate)) as (Hurl & _ & Hlast & Hseg).
  split; [exact Hurl | split].
  - apply Hlast. left. reflexivity.
  - apply Hseg. repeat constructor.
Defined.

(** ** Endpoints and the test-network flag *)

(** Every single-stream subscription starts from the endpoint the flag
    selects. *)
Lemma single_endpoints_follow_flag (UseTestnet : bool)
    (symbol param : string) :
  Forall (fun url => HasPrefix url (getWsEndpoint UseTestnet) = true)
    [ WsPartialDepthServe_endpoint UseTestnet symbol param;
      WsPartialDepthServe100Ms_endpoint UseTestnet symbol param;
      WsDepthServe_endpoint UseTestnet symbol;
      WsDepthServe100Ms_endpoint UseTestnet symbol;
      WsKlineServe_endpoint UseTestnet symbol param;
      WsAggTradeServe_endpoint UseTestnet symbol;
      WsAssetIndexServer_endpoint UseTestnet;
      WsTradeServe_endpoint UseTestnet symbol;
      WsUserDataServe_endpoint UseTestnet param;
      WsMarketStatServe_endpoint UseTestnet symbol;
      WsAllMarketsStatServe_endpoint UseTestnet;
      WsAllMiniMarketsStatServe_endpoint UseTestnet;
      WsBookTickerServe_endpoint UseTestnet symbol;
      WsAllBookTickerServe_endpoint UseTestnet ].
Proof. repeat constructor; apply prefix_append. Qed.

Lemma mark_price_endpoint_follows_flag (UseTestnet : bool) :
  HasPrefix (WsCombinedMarkPriceForAllServe_endpoint UseTestnet)
    (getCombinedEndpoint UseTestnet) = true.
Proof. apply prefix_append. Qed.

(** So does every combined subscription but the book ticker one. *)
Lemma combined_endpoints_follow_flag (UseTestnet : bool)
    (b : combined_builder) (entries : list (string * string)) :
  b <> CombinedBookTicker ->
  entries <> [] ->
  exists url,
    combined_endpoint UseTestnet b entries = Some url /\
    HasPrefix url (getCombinedEndpoint UseTestnet) = true.
Proof.
  intros Hb Hne. eexists. split.
  - now apply combined_endpoint_joined.
  - destruct b; try contradiction; apply prefix_append.
Qed.

(** C3, at the input where the code departs from it: with the test-network
    flag set, [WsCombinedBookTickerServe] still builds a production URL. *)
Theorem WsCombinedBookTickerServe_ignores_UseTestnet :
  combined_endpoint true CombinedBookTicker [("BTCUSDT", "")]
  = Some "wss://fstream.binance.com/stream?streams=btcusdt@bookTicker"
  /\ HasPrefix "wss://fstream.binance.com/stream?streams=btcusdt@bookTicker"
       (getCombinedEndpoint true) = false.
Proof. split; reflexivity. Qed.

(** ** Decoders *)


Lemma Get_MustMap (j : json) (key : string) :
  Get j key = map_get (MustMap j) key.
Proof. destruct j; reflexivity. Qed.

Lemma deliver_Handler {E : Type} (m : run E) (e : E) :
  deliver m = Handler e -> m = Ret e.
Proof. destruct m; simpl; intros H; now inversion H. Qed.

Lemma map_outcome_Handler {E F : Type} (f : E -> F) (o : outcome E) (x : F) :
  map_outcome f o = Handler x -> exists e, o = Handler e /\ f e = x.
Proof. destruct o; simpl; intros H; inversion H. now eexists. Qed.

Lemma bind_Ret {A B : Type} (m : run A) (f : A -> run B) (b : B) :
  bind m f = Ret b -> exists a, m = Ret a /\ f a = Ret b.
Proof. destruct m; simpl; intros H; [now eexists|discriminate]. Qed.

(** Inversion of a chain of binds that returned. *)
Ltac invert_run H :=
  repeat
    (let a := fresh "a" in
     let Ha := fresh "Ha" in
     apply bind_Ret in H as (a & Ha & H));
  inversion H; subst; clear H.

(** *** The symbol of combined-mode events *)

Lemma combined_wsHandler_Symbol {E : Type} (fields : list (string * kind))
    (of_store : store -> E) (set_Symbol : string -> E -> E)
    (Symbol : E -> string) (message : string) (sym : string) :
  (forall s e, Symbol (set_Symbol s e) = s) ->
  map_outcome Symbol
    (combined_wsHandler fields of_store set_Symbol message) = Handler sym ->
  sym = envelope_symbol message.
Proof.
  intros Hset. unfold combined_wsHandler, envelope_symbol, envelope_stream.
  destruct (newJSON message) as [err|j]; [discriminate|].
  destruct (Unmarshal_map fields (MustMap (Get j "data"))); [discriminate|].
  simpl. rewrite Hset, first_segment_before_first.
  intros H. now inversion H.
Qed.

(** C1, amended. For the combined partial depth, depth, kline, aggTrade and
    market-stat ticker decoders: whenever the decoder invokes the success
    handler, the event's Symbol is the part of the envelope's stream name
    before the first [@], in upper case, whatever symbol the data object
    holds. (The combined trade decoder is not among them.) *)
Theorem combined_symbol_from_stream :
  forall (k : stream_kind) (message sym : string),
    k <> Trade ->
    combined_Symbol k message = Handler sym ->
    sym = envelope_symbol message.
Proof.
  intros k message sym Hk H. destruct k; try contradiction; clear Hk.
  - (* partial depth *)
    unfold combined_Symbol, WsCombinedPartialDepthServe_wsHandler in H.
    unfold envelope_symbol, envelope_stream.
    destruct (newJSON message) as [err|j]; [discriminate|].
    apply map_outcome_Handler in H as (e & H & <-).
    apply deliver_Handler in H. invert_run H.
    cbn. now rewrite first_segment_before_first.
  - (* depth *)
    unfold combined_Symbol, wsCombinedDepthServe_wsHandler in H.
    unfold envelope_symbol, envelope_stream.
    destruct (newJSON message) as [err|j]; [discriminate|].
    apply map_outcome_Handler in H as (e & H & <-).
    apply deliver_Handler in H. invert_run H.
    cbn. now rewrite first_segment_before_first.
  - eapply combined_wsHandler_Symbol; [|exact H]. reflexivity.
  - eapply combined_wsHandler_Symbol; [|exact H]. reflexivity.
  - eapply combined_wsHandler_Symbol; [|exact H]. reflexivity.
Qed.

Lemma combined_symbol_from_stream_witness :
  Depth <> Trade /\
  combined_Symbol Depth depth_envelope = Handler "BTCUSDT" /\
  "BTCUSDT" = envelope_symbol depth_envelope.
Proof.
  assert (H1 : Depth <> Trade) by discriminate.
  assert (H2 : combined_Symbol Depth depth_envelope = Handler "BTCUSDT")
    by (vm_compute; reflexivity).
  split; [exact H1 | split; [exact H2 |]].
  exact (combined_symbol_from_stream Depth depth_envelope "BTCUSDT" H1 H2).
Defined.

(** C1 as stated fails for the trade kind: the combined trade decoder hands
    over the symbol found in [data], not the one of the stream name. *)
Lemma combined_trade_keeps_data_symbol :
  combined_Symbol Trade trade_envelope = Handler "ETHUSDT" /\
  envelope_symbol trade_envelope = "BTCUSDT" /\
  "ETHUSDT" <> "BTCUSDT".
Proof. repeat split; try (vm_compute; reflexivity). discriminate. Qed.

(** *** Panics *)


(** C2, at inputs where the code departs from it: on a valid JSON envelope
    whose data lacks the bids, or whose update ID is not a number, the
    combined depth and partial depth decoders panic on an unchecked type
    assertion and call neither callback. *)
Theorem combined_depth_decoders_panic :
  (exists v, parse_document depth_envelope_no_levels = Some v) /\
  wsCombinedDepthServe_wsHandler depth_envelope_no_levels
  = Panic TypeAssertionPanic /\
  (exists v, parse_document partial_depth_envelope_text_id = Some v) /\
  WsCombinedPartialDepthServe_wsHandler partial_depth_envelope_text_id
  = Panic TypeAssertionPanic.
Proof.
  repeat split; try (vm_compute; reflexivity); eexists; vm_compute;
    reflexivity.
Qed.

(** *** The previous-stream update ID of depth events *)

Lemma MustInt64_Number (text : string) (n : Z) :
  ParseInt text = (n, false) -> MustInt64 (JNumber text) = n.
Proof. intros H. unfold MustInt64. now rewrite H. Qed.

Lemma Number_Int64_ok (text : string) (n : Z) :
  ParseInt text = (n, false) -> Number_Int64 text = n.
Proof. intros H. unfold Number_Int64. now rewrite H. Qed.

(** C5, amended. When a depth message has no [pu] key, the decoded
    LastUpdateIDInLastStream is 0, the zero value of its int64 field; when
    [pu] is present as an integer literal of the int64 range, that number
    is decoded into the field - so an explicit [pu] of 0 decodes to the
    value an absent [pu] decodes to. Flat mode delivers such an event for
    every JSON message; combined mode is read whenever it delivers one. *)
Theorem depth_pu_decoding :
  forall (message : string) (j : json),
    newJSON message = inr j ->
    (exists e,
        wsDepthServe_wsHandler message = Handler e /\
        (map_index (MustMap j) "pu" = None ->
         WsDepthEvent.LastUpdateIDInLastStream e = 0%Z) /\
        (forall text n,
            map_index (MustMap j) "pu" = Some (JNumber text) ->
            ParseInt text = (n, false) ->
            WsDepthEvent.LastUpdateIDInLastStream e = n)) /\
    (forall e,
        wsCombinedDepthServe_wsHandler message = Handler e ->
        let data := MustMap (Get j "data") in
        (map_index data "pu" = None ->
         WsDepthEvent.LastUpdateIDInLastStream e = 0%Z) /\
        (forall text n,
            map_index data "pu" = Some (JNumber text) ->
            ParseInt text = (n, false) ->
            WsDepthEvent.LastUpdateIDInLastStream e = n)).
Proof.
  intros message j Hj. split.
  - unfold wsDepthServe_wsHandler. rewrite Hj.
    eexists. split; [reflexivity|]. cbn [WsDepthEvent.LastUpdateIDInLastStream].
    unfold not_nil. rewrite Get_MustMap. unfold map_get. split.
    + intros ->. reflexivity.
    + intros text n -> Hn. now apply MustInt64_Number.
  - intros e H data. unfold wsCombinedDepthServe_wsHandler in H.
    rewrite Hj in H. apply deliver_Handler in H.
    fold data in H. invert_run H.
    cbn [WsDepthEvent.LastUpdateIDInLastStream]. split.
    + intros Hnone. rewrite Hnone in Ha3. now inversion Ha3.
    + intros text n Hsome Hn. rewrite Hsome in Ha3.
      simpl in Ha3. inversion Ha3. now apply Number_Int64_ok.
Qed.

Lemma depth_pu_decoding_witness :
  option_map WsDepthEvent.LastUpdateIDInLastStream
    (handled (wsDepthServe_wsHandler depth_message_pu)) = Some 390497794%Z.
Proof.
  destruct (parse_prefix depth_message_pu) as [[j rest]|] eqn:Hp;
    [|vm_compute in Hp; discriminate Hp].
  assert (Hj : newJSON depth_message_pu = inr j)
    by (unfold newJSON; now rewrite Hp).
  destruct (depth_pu_decoding depth_message_pu j Hj)
    as [(e & He & _ & Hpu) _].
  rewrite He. simpl. f_equal.
  apply (Hpu "390497794").
  - vm_compute in Hp. inversion Hp. reflexivity.
  - reflexivity.
Defined.

(** C5 as stated fails: a message without [pu] and the same message with an
    explicit [pu] of 0 decode to one and the same event, in flat mode and
    in combined mode. *)
Lemma absent_pu_is_explicit_zero :
  wsDepthServe_wsHandler depth_message_no_pu
  = wsDepthServe_wsHandler depth_message_pu_zero /\
  option_map WsDepthEvent.LastUpdateIDInLastStream
    (handled (wsDepthServe_wsHandler depth_message_no_pu)) = Some 0%Z /\
  wsCombinedDepthServe_wsHandler
    (lit "{'stream':'btcusdt@depth','data':" ++ depth_message_no_pu ++ "}")
  = wsCombinedDepthServe_wsHandler
      (lit "{'stream':'btcusdt@depth','data':" ++ depth_message_pu_zero ++ "}")
  /\
  option_map WsDepthEvent.LastUpdateIDInLastStream
    (handled
       (wsCombinedDepthServe_wsHandler
          (lit "{'stream':'btcusdt@depth','data':"
             ++ depth_message_no_pu ++ "}"))) = Some 0%Z.
Proof. repeat split; vm_compute; reflexivity. Qed.

(** *** Decode errors and the read loop *)






(** *** Symbol case *)






(** *** The trade scenario *)


(** [M] and [m] are decoded apart: each key reaches its own field. *)
Lemma trade_placeholder_is_distinct :
  option_map (fun e => (WsTradeEvent.IsBuyerMaker e, WsTradeEvent.Placeholder e))
    (handled (WsTradeServe_wsHandler (lit "{'m':true,'M':false}")))
  = Some (true, false)
  /\
  option_map (fun e => (WsTradeEvent.IsBuyerMaker e, WsTradeEvent.Placeholder e))
    (handled (WsTradeServe_wsHandler (lit "{'m':false,'M':true}")))
  = Some (false, true).
Proof. split; vm_compute; reflexivity. Qed.

(** *** The asset index call *)

Lemma fold_left_append_map {A B : Type} (f : A -> B) (l : list A)
    (acc : list B) :
  fold_left (fun res i => (res ++ [f i])%list) l acc = (acc ++ map f l)%list.
Proof.
  revert acc. induction l as [|a l IH]; intros acc; simpl.
  - now rewrite app_nil_r.
  - rewrite IH, <- app_assoc. reflexivity.
Qed.

Lemma map_nth_seq {A B : Type} (f : A -> B) (d : A) (a : list A) :
  map (fun i => f (nth i a d)) (seq 0 (List.length a)) = map f a.
Proof.
  induction a as [|x a IH]; [reflexivity|].
  cbn [List.length seq map nth]. f_equal.
  rewrite <- seq_shift, map_map. exact IH.
Qed.

Lemma GetIndex_MustArray (j : json) (i : nat) :
  (i < List.length (MustArray j))%nat ->
  GetIndex j i = nth i (MustArray j) JNull.
Proof. destruct j; simpl; intros H; try lia; reflexivity. Qed.

Lemma Do_loop (j : json) :
  fold_left
    (fun res i =>
       (res ++ [AssetIndexService.response_of (GetIndex j i)])%list)
    (seq 0 (List.length (MustArray j))) []
  = map AssetIndexService.response_of (MustArray j).
Proof.
  rewrite fold_left_append_map. simpl.
  rewrite <- (map_nth_seq AssetIndexService.response_of JNull).
  apply map_ext_in. intros i Hi. apply in_seq in Hi.
  rewrite GetIndex_MustArray by lia. reflexivity.
Qed.

Lemma MustString_Get_string_at (record : json) (key : string) :
  MustString (Get record key) = string_at record key.
Proof.
  unfold string_at, member_of. destruct record; try reflexivity.
  cbn [Get]. unfold map_get. destruct (map_index members key); reflexivity.
Qed.

Lemma MustInt64_Get_int64_at (record : json) (key : string) :
  MustInt64 (Get record key) = int64_at record key.
Proof.
  unfold int64_at, member_of. destruct record; try reflexivity.
  cbn [Get]. unfold map_get.
  destruct (map_index members key) as [[]|]; try reflexivity.
  cbn [MustInt64]. destruct (ParseInt text) as [n bad]. reflexivity.
Qed.

(** C9. [Do] returns one record per element of the returned JSON array, in
    the order of the array; in each record Symbol holds the string under the
    element's key [symbol], Time the integer under [time], Index the string
    under [index], and so on for the bid and ask buffers and rates and
    their auto-exchange counterparts, each from the key of its own name.
    When the call fails or the body is not JSON, [Do] returns the nil result
    together with the error. *)
Theorem AssetIndexService_Do_spec :
  (forall err, AssetIndexService.Do (inl err) = (None, Some err)) /\
  (forall data err,
      newJSON data = inl err ->
      AssetIndexService.Do (inr data) = (None, Some err)) /\
  (forall data j,
      newJSON data = inr j ->
      exists res,
        AssetIndexService.Do (inr data) = (Some res, None) /\
        Forall2
          (fun idx r =>
             AssetIndexResponse.Symbol r = string_at idx "symbol" /\
             AssetIndexResponse.Time r = int64_at idx "time" /\
             AssetIndexResponse.Index r = string_at idx "index" /\
             AssetIndexResponse.BidBuffer r = string_at idx "bidBuffer" /\
             AssetIndexResponse.AskBuffer r = string_at idx "askBuffer" /\
             AssetIndexResponse.BidRate r = string_at idx "bidRate" /\
             AssetIndexResponse.AskRate r = string_at idx "askRate" /\
             AssetIndexResponse.AutoExchangeBidBuffer r
             = string_at idx "autoExchangeBidBuffer" /\
             AssetIndexResponse.AutoExchangeAskBuffer r
             = string_at idx "autoExchangeAskBuffer" /\
             AssetIndexResponse.AutoExchangeBidRate r
             = string_at idx "autoExchangeBidRate" /\
             AssetIndexResponse.AutoExchangeAskRate r
             = string_at idx "autoExchangeAskRate")
          (MustArray j) res).
Proof.
  split; [reflexivity|split].
  - intros data err H. unfold AssetIndexService.Do. now rewrite H.
  - intros data j H.
    exists (map AssetIndexService.response_of (MustArray j)).
    unfold AssetIndexService.Do. rewrite H, Do_loop.
    split; [reflexivity|].
    induction (MustArray j) as [|idx l IH]; [constructor|].
    cbn [map]. constructor; [|exact IH].
    unfold AssetIndexService.response_of.
    cbn [AssetIndexResponse.Symbol AssetIndexResponse.Time
         AssetIndexResponse.Index AssetIndexResponse.BidBuffer
         AssetIndexResponse.AskBuffer AssetIndexResponse.BidRate
         AssetIndexResponse.AskRate AssetIndexResponse.AutoExchangeBidBuffer
         AssetIndexResponse.AutoExchangeAskBuffer
         AssetIndexResponse.AutoExchangeBidRate
         AssetIndexResponse.AutoExchangeAskRate].
    rewrite !MustString_Get_string_at, MustInt64_Get_int64_at.
    repeat split.
Qed.

Lemma AssetIndexService_Do_spec_witness :
  (exists r1 r2,
      AssetIndexService.Do (inr asset_index_body) = (Some [r1; r2], None) /\
      AssetIndexResponse.Symbol r1 = "ADAUSD" /\
      AssetIndexResponse.Time r1 = 1635740268004%Z /\
      AssetIndexResponse.Index r1 = "1.92957370" /\
      AssetIndexResponse.BidBuffer r1 = "0.10000000" /\
      AssetIndexResponse.AskBuffer r1 = "0.12000000" /\
      AssetIndexResponse.BidRate r1 = "1.73661633" /\
      AssetIndexResponse.AskRate r1 = "2.12253107" /\
      AssetIndexResponse.AutoExchangeBidBuffer r1 = "0.05000000" /\
      AssetIndexResponse.AutoExchangeAskBuffer r1 = "0.06000000" /\
      AssetIndexResponse.AutoExchangeBidRate r1 = "1.83309501" /\
      AssetIndexResponse.AutoExchangeAskRate r1 = "2.02605238" /\
      AssetIndexResponse.Symbol r2 = "USDTUSD" /\
      AssetIndexResponse.Time r2 = 1635740268004%Z /\
      AssetIndexResponse.Index r2 = "1.00061338" /\
      AssetIndexResponse.BidBuffer r2 = "" /\
      AssetIndexResponse.AutoExchangeAskRate r2 = "")
  /\ AssetIndexService.Do (inr "[{") = (None, Some SyntaxError)
  /\ AssetIndexService.Do (inl TransportError) = (None, Some TransportError).
Proof.
  destruct AssetIndexService_Do_spec as (Hcall & Hparse & Hok).
  destruct (newJSON asset_index_body) as [err|j] eqn:Hj;
    [vm_compute in Hj; discriminate Hj|].
  split; [|split].
  - destruct (Hok asset_index_body j Hj) as (res & Hdo & Hall).
    vm_compute in Hj. injection Hj as <-. cbn [MustArray] in Hall.
    inversion Hall as [|idx1 r1 l1 res1 H1 Hall1]; subst.
    inversion Hall1 as [|idx2 r2 l2 res2 H2 Hall2]; subst.
    inversion Hall2; subst.
    exists r1, r2. split; [exact Hdo|].
    destruct H1 as (A1 & A2 & A3 & A4 & A5 & A6 & A7 & A8 & A9 & A10 & A11).
    destruct H2 as (B1 & B2 & B3 & B4 & _ & _ & _ & _ & _ & _ & B11).
    rewrite A1, A2, A3, A4, A5, A6, A7, A8, A9, A10, A11, B1, B2, B3, B4, B11.
    repeat split.
  - apply Hparse. vm_compute. reflexivity.
  - apply Hcall.
Defined.

(** *** The combined book ticker *)

(** C10. There is a valid JSON input of the combined book ticker
    subscription, an envelope object without a [data] member, for which the
    decoder does not call the error handler and calls the success handler
    with a nil event. *)
Theorem combined_book_ticker_nil_event :
  exists (message : string) (members : list (string * json)),
    parse_document message = Some (JObject members) /\
    map_index members "data" = None /\
    WsCombinedBookTickerServe_wsHandler message = Handler None.
Proof.
  exists book_ticker_envelope_no_data.
  exists [("stream", JString "btcusdt@bookTicker")].
  repeat split.
Qed.
(** ** The combined depth decoders on well-formed and ill-formed data *)

Lemma for_each_Ret_map {A B : Type} (f : A -> run B) (g : A -> B)
    (l : list A) :
  (forall a, In a l -> f a = Ret (g a)) -> for_each f l = Ret (map g l).
Proof.
  induction l as [|a l IH]; intros H; [reflexivity|].
  cbn [for_each map]. rewrite (H a) by now left.
  rewrite IH by (intros; apply H; now right). reflexivity.
Qed.

Lemma for_each_Crash {A B : Type} (f : A -> run B) (l : list A) (a : A)
    (p : panic) :
  In a l -> f a = Crash p -> exists p', for_each f l = Crash p'.
Proof.
  induction l as [|x l IH]; intros Hin Hf; [contradiction|].
  cbn [for_each]. destruct (f x) as [b|q] eqn:Hx; [|eexists; reflexivity].
  destruct Hin as [->|Hin]; [congruence|].
  destruct (IH Hin Hf) as [p' ->]. eexists; reflexivity.
Qed.

Lemma forallb_false_nth {A : Type} (f : A -> bool) (l : list A) (d : A) :
  forallb f l = false ->
  exists i, (i < List.length l)%nat /\ f (nth i l d) = false.
Proof.
  induction l as [|a l IH]; [discriminate|].
  cbn [forallb]. destruct (f a) eqn:Ha.
  - intros H. destruct (IH H) as (i & Hi & Hf).
    exists (S i). split; [simpl; lia|exact Hf].
  - intros _. exists 0%nat. split; [simpl; lia|exact Ha].
Qed.

Lemma index_nth {A : Type} (a : list A) (i : nat) (d : A) :
  (i < List.length a)%nat -> index a i = Ret (nth i a d).
Proof.
  intros Hi. unfold index.
  destruct (nth_error a i) eqn:E.
  - now rewrite (nth_error_nth _ _ d E).
  - apply nth_error_None in E. lia.
Qed.

Lemma combined_level_ok (data : list (string * json)) (key : string)
    (elems : list json) (i : nat) :
  map_get data key = JArray elems ->
  (i < List.length elems)%nat ->
  level_ok (nth i elems JNull) = true ->
  combined_level data key i = Ret (flat_level (map_get data key) i).
Proof.
  intros Hside Hi Hok. unfold combined_level, flat_level.
  rewrite Hside. cbn [assert_slice bind GetIndex].
  rewrite (index_nth elems i JNull Hi). cbn [bind].
  destruct (nth i elems JNull) as [| | | |[|[]]|]; try discriminate.
  destruct l as [|[]]; try discriminate. reflexivity.
Qed.

Lemma combined_level_bad (data : list (string * json)) (key : string)
    (elems : list json) (i : nat) :
  map_get data key = JArray elems ->
  (i < List.length elems)%nat ->
  level_ok (nth i elems JNull) = false ->
  exists p, combined_level data key i = Crash p.
Proof.
  intros Hside Hi Hbad. unfold combined_level.
  rewrite Hside. cbn [assert_slice bind].
  rewrite (index_nth elems i JNull Hi). cbn [bind].
  destruct (nth i elems JNull) as [| | | |item|];
    try (eexists; reflexivity).
  destruct item as [|x item]; [eexists; reflexivity|].
  destruct x; try (eexists; reflexivity).
  destruct item as [|y item]; [eexists; reflexivity|].
  destruct y; try (eexists; reflexivity). discriminate Hbad.
Qed.

Lemma combined_levels_ok (data : list (string * json)) (key : string) :
  side_ok (map_get data key) = true ->
  combined_levels data key = Ret (flat_levels (map_get data key)).
Proof.
  intros Hok. unfold combined_levels, flat_levels.
  destruct (map_get data key) as [| | | |elems|] eqn:Hside; try discriminate.
  cbn [assert_slice bind MustArray].
  apply for_each_Ret_map. intros i Hi. apply in_seq in Hi.
  rewrite <- Hside. apply (combined_level_ok data key elems); try lia;
    [assumption|].
  cbn [side_ok] in Hok. rewrite forallb_forall in Hok.
  apply Hok, nth_In. lia.
Qed.

Lemma combined_levels_bad (data : list (string * json)) (key : string) :
  side_ok (map_get data key) = false ->
  exists p, combined_levels data key = Crash p.
Proof.
  intros Hbad. unfold combined_levels.
  destruct (map_get data key) as [| | | |elems|] eqn:Hside;
    try (eexists; reflexivity).
  cbn [assert_slice bind]. cbn [side_ok] in Hbad.
  destruct (forallb_false_nth level_ok elems JNull Hbad) as (i & Hi & Hf).
  destruct (combined_level_bad data key elems i Hside Hi Hf) as [p Hp].
  apply (for_each_Crash _ _ i p); [|exact Hp].
  apply in_seq. lia.
Qed.

Lemma wsCombinedDepthServe_cases (message : string) (j : json) :
  newJSON message = inr j ->
  let stream := MustString (Get j "stream") in
  let data := MustMap (Get j "data") in
  (depth_data_ok data = true ->
   wsCombinedDepthServe_wsHandler message
   = Handler (depth_event_of stream data)) /\
  (depth_data_ok data = false ->
   exists p, wsCombinedDepthServe_wsHandler message = Panic p).
Proof.
  intros Hj stream data.
  unfold wsCombinedDepthServe_wsHandler. rewrite Hj.
  fold stream. fold data. unfold depth_data_ok, depth_event_of.
  rewrite <- first_segment_before_first.
  assert (Hpu : map_get data "pu"
                = match map_index data "pu" with Some v => v | None => JNull end)
    by reflexivity.
  rewrite Hpu. clear Hpu.
  destruct (map_get data "e"); cbn [is_string andb assert_string bind deliver];
    try (split; [discriminate|eexists; reflexivity]).
  destruct (map_get data "E");
    cbn [is_number andb assert_Number bind deliver];
    try (split; [discriminate|eexists; reflexivity]).
  destruct (map_get data "u");
    cbn [is_number andb assert_Number bind deliver];
    try (split; [discriminate|eexists; reflexivity]).
  destruct (map_get data "U");
    cbn [is_number andb assert_Number bind deliver];
    try (split; [discriminate|eexists; reflexivity]).
  destruct (map_index data "pu") as [pu|].
  - destruct pu; cbn [is_number andb assert_Number bind deliver];
      try (split; [discriminate|eexists; reflexivity]).
    destruct (side_ok (map_get data "b")) eqn:Hb.
    + rewrite (combined_levels_ok data "b" Hb). cbn [andb bind].
      destruct (side_ok (map_get data "a")) eqn:Ha.
      * rewrite (combined_levels_ok data "a" Ha). cbn [bind deliver].
        split; [reflexivity|discriminate].
      * destruct (combined_levels_bad data "a" Ha) as [p ->].
        split; [discriminate|eexists; reflexivity].
    + destruct (combined_levels_bad data "b" Hb) as [p ->].
      split; [discriminate|eexists; reflexivity].
  - cbn [andb bind].
    destruct (side_ok (map_get data "b")) eqn:Hb.
    + rewrite (combined_levels_ok data "b" Hb). cbn [andb bind].
      destruct (side_ok (map_get data "a")) eqn:Ha.
      * rewrite (combined_levels_ok data "a" Ha). cbn [bind deliver].
        split; [reflexivity|discriminate].
      * destruct (combined_levels_bad data "a" Ha) as [p ->].
        split; [discriminate|eexists; reflexivity].
    + destruct (combined_levels_bad data "b" Hb) as [p ->].
      split; [discriminate|eexists; reflexivity].
Qed.


(** X1. On a JSON envelope, [wsCombinedDepthServe] calls the success
    handler exactly when the envelope's data is well formed - [e] a string,
    [E], [u], [U] numbers, [pu] absent or a number, [b] and [a] arrays of
    arrays that start with two strings - and then with the event read off
    the data; on any other data it panics. It never calls the error handler
    for a JSON message. *)
Theorem combined_depth_delivers_iff_well_formed :
  forall (message : string) (j : json),
    newJSON message = inr j ->
    let stream := MustString (Get j "stream") in
    let data := MustMap (Get j "data") in
    (depth_data_ok data = true <->
     wsCombinedDepthServe_wsHandler message
     = Handler (depth_event_of stream data)) /\
    (depth_data_ok data = false <->
     exists p, wsCombinedDepthServe_wsHandler message = Panic p) /\
    (forall err, wsCombinedDepthServe_wsHandler message <> ErrHandler err).
Proof.
  intros message j Hj stream data.
  destruct (wsCombinedDepthServe_cases message j Hj) as [Hok Hbad].
  fold stream data in Hok, Hbad.
  destruct (depth_data_ok data) eqn:E.
  - specialize (Hok eq_refl). rewrite Hok. repeat split; try discriminate.
    + intros [p Hp]. discriminate Hp.
  - destruct (Hbad eq_refl) as [p Hp]. rewrite Hp.
    repeat split; try discriminate. now exists p.
Qed.

Lemma combined_depth_delivers_iff_well_formed_witness :
  (exists e,
      wsCombinedDepthServe_wsHandler depth_envelope = Handler e /\
      WsDepthEvent.Bids e = [{| Price := "7403.89"; Quantity := "0.002" |}] /\
      WsDepthEvent.LastUpdateIDInLastStream e = 390497794%Z) /\
  (exists p, wsCombinedDepthServe_wsHandler depth_envelope_no_levels = Panic p).
Proof.
  split.
  - destruct (newJSON depth_envelope) as [err|j] eqn:Hj;
      [vm_compute in Hj; discriminate Hj|].
    destruct (combined_depth_delivers_iff_well_formed depth_envelope j Hj)
      as ([Hok _] & _ & _).
    pose proof Hj as Hj'. vm_compute in Hj'. injection Hj' as <-.
    eexists. split; [apply Hok; vm_compute; reflexivity|].
    split; vm_compute; reflexivity.
  - destruct (newJSON depth_envelope_no_levels) as [err|j] eqn:Hj;
      [vm_compute in Hj; discriminate Hj|].
    destruct (combined_depth_delivers_iff_well_formed
                depth_envelope_no_levels j Hj) as (_ & [Hbad _] & _).
    pose proof Hj as Hj'. vm_compute in Hj'. injection Hj' as <-.
    apply Hbad. vm_compute. reflexivity.
Defined.

Lemma WsCombinedPartialDepthServe_cases (message : string) (j : json) :
  newJSON message = inr j ->
  let stream := MustString (Get j "stream") in
  let data := MustMap (Get j "data") in
  (partial_depth_data_ok data = true ->
   WsCombinedPartialDepthServe_wsHandler message
   = Handler (partial_depth_event_of stream data)) /\
  (partial_depth_data_ok data = false ->
   exists p, WsCombinedPartialDepthServe_wsHandler message = Panic p).
Proof.
  intros Hj stream data.
  unfold WsCombinedPartialDepthServe_wsHandler. rewrite Hj.
  fold stream. fold data.
  unfold partial_depth_data_ok, partial_depth_event_of.
  rewrite <- first_segment_before_first.
  destruct (map_get data "lastUpdateId");
    cbn [is_number andb assert_Number bind deliver];
    try (split; [discriminate|eexists; reflexivity]).
  destruct (side_ok (map_get data "bids")) eqn:Hb.
  - rewrite (combined_levels_ok data "bids" Hb). cbn [andb bind].
    destruct (side_ok (map_get data "asks")) eqn:Ha.
    + rewrite (combined_levels_ok data "asks" Ha). cbn [bind deliver].
      split; [reflexivity|discriminate].
    + destruct (combined_levels_bad data "asks" Ha) as [p ->].
      split; [discriminate|eexists; reflexivity].
  - destruct (combined_levels_bad data "bids" Hb) as [p ->].
    split; [discriminate|eexists; reflexivity].
Qed.

(** X2. On a JSON envelope, [WsCombinedPartialDepthServe] calls the success
    handler exactly when the envelope's data is well formed -
    [lastUpdateId] a number, [bids] and [asks] arrays of arrays that start
    with two strings - and then with the event read off the data; on any
    other data it panics. It never calls the error handler for a JSON
    message. *)
Theorem combined_partial_depth_delivers_iff_well_formed :
  forall (message : string) (j : json),
    newJSON message = inr j ->
    let stream := MustString (Get j "stream") in
    let data := MustMap (Get j "data") in
    (partial_depth_data_ok data = true <->
     WsCombinedPartialDepthServe_wsHandler message
     = Handler (partial_depth_event_of stream data)) /\
    (partial_depth_data_ok data = false <->
     exists p, WsCombinedPartialDepthServe_wsHandler message = Panic p) /\
    (forall err,
        WsCombinedPartialDepthServe_wsHandler message <> ErrHandler err).
Proof.
  intros message j Hj stream data.
  destruct (WsCombinedPartialDepthServe_cases message j Hj) as [Hok Hbad].
  fold stream data in Hok, Hbad.
  destruct (partial_depth_data_ok data) eqn:E.
  - specialize (Hok eq_refl). rewrite Hok. repeat split; try discriminate.
    + intros [p Hp]. discriminate Hp.
  - destruct (Hbad eq_refl) as [p Hp]. rewrite Hp.
    repeat split; try discriminate. now exists p.
Qed.

Lemma combined_partial_depth_delivers_iff_well_formed_witness :
  (exists e,
      WsCombinedPartialDepthServe_wsHandler partial_depth_envelope
      = Handler e /\
      WsPartialDepthEvent.Symbol e = "BTCUSDT" /\
      WsPartialDepthEvent.Asks e
      = [{| Price := "0.0026"; Quantity := "100" |};
         {| Price := "0.0027"; Quantity := "7" |}]) /\
  (exists p,
      WsCombinedPartialDepthServe_wsHandler partial_depth_envelope_text_id
      = Panic p).
Proof.
  split.
  - destruct (newJSON partial_depth_envelope) as [err|j] eqn:Hj;
      [vm_compute in Hj; discriminate Hj|].
    destruct (combined_partial_depth_delivers_iff_well_formed
                partial_depth_envelope j Hj) as ([Hok _] & _ & _).
    pose proof Hj as Hj'. vm_compute in Hj'. injection Hj' as <-.
    eexists. split; [apply Hok; vm_compute; reflexivity|].
    split; vm_compute; reflexivity.
  - destruct (newJSON partial_depth_envelope_text_id) as [err|j] eqn:Hj;
      [vm_compute in Hj; discriminate Hj|].
    destruct (combined_partial_depth_delivers_iff_well_formed
                partial_depth_envelope_text_id j Hj) as (_ & [Hbad _] & _).
    pose proof Hj as Hj'. vm_compute in Hj'. injection Hj' as <-.
    apply Hbad. vm_compute. reflexivity.
Defined.

(** ** Flat mode and combined mode on the same depth data *)

Lemma member_of_MustMap (v : json) (key : string) :
  member_of v key = map_index (MustMap v) key.
Proof. destruct v; reflexivity. Qed.

Lemma is_number_text (v : json) :
  is_number v = true -> exists text, v = JNumber text.
Proof. destruct v; try discriminate. intros _. now eexists. Qed.

Lemma flat_levels_map (side : json) :
  flat_levels side = map level_of (MustArray side).
Proof.
  unfold flat_levels.
  rewrite <- (map_nth_seq level_of JNull (MustArray side)).
  apply map_ext_in. intros i Hi. apply in_seq in Hi.
  unfold flat_level, level_of.
  rewrite (GetIndex_MustArray side i) by lia. reflexivity.
Qed.

(** X3. On well-formed depth data the flat decoder (given the data as the
    message) and the combined decoder (given the envelope) deliver the same
    event type - the string under [e] - and the same price levels, read
    from [b] and [a]. Each of the IDs is read from its own key: the time
    from [E], the last update ID from [u], the first update ID from [U] and
    the last update ID of the previous stream from [pu]. For the number
    text under the key the combined decoder has the value [ParseInt]
    returns, its error dropped; the flat decoder has that value when
    [ParseInt] reports no error and 0 when it does. Without [pu] both have
    0. The symbol is the data's own [s] in flat mode and the upper-cased
    stream prefix in combined mode. *)
Theorem combined_depth_agrees_with_flat :
  forall (message payload : string) (j : json),
    newJSON message = inr j ->
    newJSON payload = inr (Get j "data") ->
    depth_data_ok (MustMap (Get j "data")) = true ->
    let data := Get j "data" in
    exists e e' tE tu tU,
      wsCombinedDepthServe_wsHandler message = Handler e /\
      wsDepthServe_wsHandler payload = Handler e' /\
      WsDepthEvent.Event e = string_at data "e" /\
      WsDepthEvent.Event e' = string_at data "e" /\
      WsDepthEvent.Bids e = map level_of (MustArray (Get data "b")) /\
      WsDepthEvent.Bids e' = WsDepthEvent.Bids e /\
      WsDepthEvent.Asks e = map level_of (MustArray (Get data "a")) /\
      WsDepthEvent.Asks e' = WsDepthEvent.Asks e /\
      WsDepthEvent.Symbol e' = string_at data "s" /\
      WsDepthEvent.Symbol e
      = ToUpper (before_first "@" (MustString (Get j "stream"))) /\
      member_of data "E" = Some (JNumber tE) /\
      WsDepthEvent.Time e = fst (ParseInt tE) /\
      WsDepthEvent.Time e'
      = (if snd (ParseInt tE) then 0%Z else fst (ParseInt tE)) /\
      member_of data "u" = Some (JNumber tu) /\
      WsDepthEvent.LastUpdateID e = fst (ParseInt tu) /\
      WsDepthEvent.LastUpdateID e'
      = (if snd (ParseInt tu) then 0%Z else fst (ParseInt tu)) /\
      member_of data "U" = Some (JNumber tU) /\
      WsDepthEvent.FirstUpdateID e = fst (ParseInt tU) /\
      WsDepthEvent.FirstUpdateID e'
      = (if snd (ParseInt tU) then 0%Z else fst (ParseInt tU)) /\
      (member_of data "pu" = None ->
       WsDepthEvent.LastUpdateIDInLastStream e = 0%Z /\
       WsDepthEvent.LastUpdateIDInLastStream e' = 0%Z) /\
      (forall v,
          member_of data "pu" = Some v ->
          exists tpu,
            v = JNumber tpu /\
            WsDepthEvent.LastUpdateIDInLastStream e = fst (ParseInt tpu) /\
            WsDepthEvent.LastUpdateIDInLastStream e'
            = (if snd (ParseInt tpu) then 0%Z else fst (ParseInt tpu))).
Proof.
  intros message payload j Hj Hp Hok data.
  destruct (wsCombinedDepthServe_cases message j Hj) as [Hc _].
  specialize (Hc Hok).
  unfold depth_data_ok in Hok.
  repeat (apply andb_prop in Hok; destruct Hok as [Hok ?]).
  match goal with H : is_number (map_get _ "E") = true |- _ =>
    destruct (is_number_text _ H) as [tE HE] end.
  match goal with H : is_number (map_get _ "u") = true |- _ =>
    destruct (is_number_text _ H) as [tu Hu] end.
  match goal with H : is_number (map_get _ "U") = true |- _ =>
    destruct (is_number_text _ H) as [tU HU] end.
  exists (depth_event_of (MustString (Get j "stream"))
            (MustMap (Get j "data"))).
  eexists. exists tE, tu, tU. split; [exact Hc|].
  unfold wsDepthServe_wsHandler. rewrite Hp. split; [reflexivity|].
  unfold depth_event_of, not_nil.
  cbn [WsDepthEvent.Event WsDepthEvent.Bids WsDepthEvent.Asks
       WsDepthEvent.Symbol WsDepthEvent.Time WsDepthEvent.LastUpdateID
       WsDepthEvent.FirstUpdateID WsDepthEvent.LastUpdateIDInLastStream].
  subst data. rewrite !flat_levels_map.
  rewrite <- !MustString_Get_string_at, !member_of_MustMap.
  rewrite !(Get_MustMap (Get j "data")).
  set (data := MustMap (Get j "data")) in *.
  unfold map_get in HE, Hu, HU |- *.
  destruct (map_index data "E") as [vE|]; [|discriminate HE].
  destruct (map_index data "u") as [vu|]; [|discriminate Hu].
  destruct (map_index data "U") as [vU|]; [|discriminate HU].
  subst vE vu vU. cbn [Int64_of MustInt64]. unfold Number_Int64.
  destruct (ParseInt tE) as [nE bE], (ParseInt tu) as [nu bu],
    (ParseInt tU) as [nU bU].
  cbn [fst snd].
  split; [reflexivity|]. split; [reflexivity|]. split; [reflexivity|].
  split; [reflexivity|]. split; [reflexivity|]. split; [reflexivity|].
  split; [reflexivity|]. split; [reflexivity|]. split; [reflexivity|].
  split; [reflexivity|]. split; [reflexivity|]. split; [reflexivity|].
  split; [reflexivity|]. split; [reflexivity|]. split; [reflexivity|].
  split; [reflexivity|]. split; [reflexivity|].
  match goal with H : match map_index _ "pu" with _ => _ end = true |- _ =>
    rename H into Hpu end.
  destruct (map_index data "pu") as [vpu|].
  - split; [discriminate|]. intros v Hv. injection Hv as <-.
    destruct (is_number_text _ Hpu) as [tpu ->]. exists tpu.
    cbn [Int64_of MustInt64]. unfold Number_Int64.
    destruct (ParseInt tpu) as [n b]. cbn [fst snd].
    split; [reflexivity|]. split; reflexivity.
  - split; [|discriminate]. intros _. split; reflexivity.
Qed.

Lemma combined_depth_agrees_with_flat_witness :
  exists e e',
    wsCombinedDepthServe_wsHandler
      (lit "{'stream':'btcusdt@depth','data':" ++ depth_message_pu ++ "}")
    = Handler e /\
    wsDepthServe_wsHandler depth_message_pu = Handler e' /\
    WsDepthEvent.Bids e' = WsDepthEvent.Bids e /\
    WsDepthEvent.Time e = WsDepthEvent.Time e' /\
    WsDepthEvent.LastUpdateID e = WsDepthEvent.LastUpdateID e' /\
    WsDepthEvent.FirstUpdateID e = WsDepthEvent.FirstUpdateID e' /\
    WsDepthEvent.LastUpdateIDInLastStream e
    = WsDepthEvent.LastUpdateIDInLastStream e'.
Proof.
  destruct (newJSON
              (lit "{'stream':'btcusdt@depth','data':"
                 ++ depth_message_pu ++ "}")) as [err|j] eqn:Hj;
    [vm_compute in Hj; discriminate Hj|].
  pose proof Hj as Hj'. vm_compute in Hj'. injection Hj' as Hjv.
  assert (Hp : newJSON depth_message_pu = inr (Get j "data"))
    by (rewrite <- Hjv; vm_compute; reflexivity).
  assert (Hok : depth_data_ok (MustMap (Get j "data")) = true)
    by (rewrite <- Hjv; vm_compute; reflexivity).
  destruct (combined_depth_agrees_with_flat _ _ j Hj Hp Hok)
    as (e & e' & tE & tu & tU & Hc & Hf & _ & _ & _ & Hb & _ & _ & _ & _
        & HE & Ht & Ht' & Hu & Hl & Hl' & HU & Hi & Hi' & _ & Hpu).
  exists e, e'.
  split; [exact Hc|]. split; [exact Hf|]. split; [exact Hb|].
  rewrite <- Hjv in HE, Hu, HU, Hpu.
  vm_compute in HE. injection HE as <-.
  vm_compute in Hu. injection Hu as <-.
  vm_compute in HU. injection HU as <-.
  destruct (Hpu _ eq_refl) as (tpu & Hv & Hq & Hq').
  injection Hv as <-.
  rewrite Ht, Ht', Hl, Hl', Hi, Hi', Hq, Hq'.
  split; [vm_compute; reflexivity|]. split; [vm_compute; reflexivity|].
  split; vm_compute; reflexivity.
Defined.

(** ** Update IDs beyond the int64 range *)

Lemma digit_is_no_sign (c : ascii) :
  is_digit c = true -> Ascii.eqb c "-" = false /\ Ascii.eqb c "+" = false.
Proof.
  destruct c as [[] [] [] [] [] [] [] []]; intros H;
    try discriminate H; split; reflexivity.
Qed.

Lemma digit_val_range (c : ascii) :
  is_digit c = true -> (0 <= digit_val c <= 9)%Z.
Proof.
  destruct c as [[] [] [] [] [] [] [] []]; intros H;
    try discriminate H; vm_compute; split; discriminate.
Qed.

Lemma parse_digits_nonneg (s : string) (acc n : Z) :
  (0 <= acc)%Z -> parse_digits s acc = Some n -> (0 <= n)%Z.
Proof.
  revert acc. induction s as [|c s IH]; simpl; intros acc Hacc H.
  - inversion H. now subst.
  - destruct (is_digit c) eqn:Hc; [|discriminate].
    apply (IH (10 * acc + digit_val c)%Z); [|exact H].
    pose proof (digit_val_range c Hc). lia.
Qed.

Lemma ParseUint_head (c : ascii) (r : string) (n : Z) :
  ParseUint (String c r) = Some n -> is_digit c = true.
Proof. simpl. destruct (is_digit c); [reflexivity|discriminate]. Qed.

Lemma ParseInt_overflow (text : string) (n : Z) :
  ParseUint text = Some n ->
  (9223372036854775808 <= n)%Z ->
  ParseInt text = (int64_max, true).
Proof.
  intros H Hn. destruct text as [|c r]; [discriminate|].
  destruct (digit_is_no_sign c (ParseUint_head c r n H)) as [Hm Hp].
  unfold ParseInt. rewrite Hm, Hp. cbn [orb]. rewrite H.
  destruct (n >=? 9223372036854775808)%Z eqn:E; [reflexivity|].
  rewrite Z.geb_leb in E. apply Z.leb_gt in E. lia.
Qed.

Lemma ParseInt_range (text : string) :
  (int64_min <= fst (ParseInt text) <= int64_max)%Z.
Proof.
  unfold ParseInt, int64_min, int64_max.
  destruct text as [|c r]; [simpl; lia|].
  destruct (ParseUint
              (if (Ascii.eqb c "-" || Ascii.eqb c "+")%bool
               then r else String c r)) as [un|] eqn:E; [|simpl; lia].
  assert (Hun : (0 <= un)%Z).
  { unfold ParseUint in E.
    destruct (if (Ascii.eqb c "-" || Ascii.eqb c "+")%bool
              then r else String c r); [discriminate|].
    eapply parse_digits_nonneg; [|exact E]. lia. }
  destruct (Ascii.eqb c "-").
  - destruct (un >? 9223372036854775808)%Z eqn:G; simpl; [lia|].
    rewrite Z.gtb_ltb in G. apply Z.ltb_ge in G. lia.
  - destruct (un >=? 9223372036854775808)%Z eqn:G; simpl; [lia|].
    rewrite Z.geb_leb in G. apply Z.leb_gt in G. lia.
Qed.

Lemma Int64_of_range (v : json) :
  (int64_min <= Int64_of v <= int64_max)%Z.
Proof.
  destruct v; try apply ParseInt_range;
    cbn [Int64_of]; unfold int64_min, int64_max; lia.
Qed.

(** X4. An update ID written beyond the int64 range is no decode error in
    either mode: the combined depth decoder delivers the largest int64,
    the flat depth decoder delivers 0. Every update ID the combined decoder
    delivers lies in the int64 range. *)
Theorem depth_id_beyond_int64 :
  forall (message payload : string) (j : json) (text : string) (n : Z),
    newJSON message = inr j ->
    newJSON payload = inr (Get j "data") ->
    depth_data_ok (MustMap (Get j "data")) = true ->
    Get (Get j "data") "u" = JNumber text ->
    ParseUint text = Some n ->
    (9223372036854775808 <= n)%Z ->
    exists e e',
      wsCombinedDepthServe_wsHandler message = Handler e /\
      wsDepthServe_wsHandler payload = Handler e' /\
      WsDepthEvent.LastUpdateID e = int64_max /\
      WsDepthEvent.LastUpdateID e' = 0%Z /\
      (int64_min <= WsDepthEvent.Time e <= int64_max)%Z /\
      (int64_min <= WsDepthEvent.FirstUpdateID e <= int64_max)%Z /\
      (int64_min <= WsDepthEvent.LastUpdateIDInLastStream e <= int64_max)%Z.
Proof.
  intros message payload j text n Hj Hp Hok Hu Hn Hbig.
  destruct (wsCombinedDepthServe_cases message j Hj) as [Hc _].
  specialize (Hc Hok).
  exists (depth_event_of (MustString (Get j "stream"))
            (MustMap (Get j "data"))).
  eexists. split; [exact Hc|].
  unfold wsDepthServe_wsHandler. rewrite Hp. split; [reflexivity|].
  unfold depth_event_of.
  cbn [WsDepthEvent.Time WsDepthEvent.LastUpdateID
       WsDepthEvent.FirstUpdateID WsDepthEvent.LastUpdateIDInLastStream].
  rewrite <- !Get_MustMap. rewrite Hu.
  pose proof (ParseInt_overflow text n Hn Hbig) as Hparse.
  unfold Int64_of at 1. unfold Number_Int64, MustInt64. rewrite Hparse.
  repeat split; try reflexivity; apply Int64_of_range.
Qed.

Lemma depth_id_beyond_int64_witness :
  exists e e',
    wsCombinedDepthServe_wsHandler
      (lit "{'stream':'btcusdt@depth','data':"
         ++ depth_message_huge_id ++ "}") = Handler e /\
    wsDepthServe_wsHandler depth_message_huge_id = Handler e' /\
    WsDepthEvent.LastUpdateID e = 9223372036854775807%Z /\
    WsDepthEvent.LastUpdateID e' = 0%Z.
Proof.
  destruct (newJSON
              (lit "{'stream':'btcusdt@depth','data':"
                 ++ depth_message_huge_id ++ "}")) as [err|j] eqn:Hj;
    [vm_compute in Hj; discriminate Hj|].
  pose proof Hj as Hj'. vm_compute in Hj'. injection Hj' as Hjv.
  assert (Hp : newJSON depth_message_huge_id = inr (Get j "data"))
    by (rewrite <- Hjv; vm_compute; reflexivity).
  assert (Hok : depth_data_ok (MustMap (Get j "data")) = true)
    by (rewrite <- Hjv; vm_compute; reflexivity).
  assert (Hu : Get (Get j "data") "u" = JNumber "9223372036854775808")
    by (rewrite <- Hjv; vm_compute; reflexivity).
  destruct (depth_id_beyond_int64 _ _ j "9223372036854775808"
              9223372036854775808 Hj Hp Hok Hu eq_refl ltac:(lia))
    as (e & e' & Hc & Hf & H1 & H2 & _).
  exists e, e'. repeat split; assumption.
Defined.
(** ** From the subscribed symbol to the decoded symbol *)

Lemma upper_lower (c : ascii) : upper (lower c) = upper c.
Proof. destruct c as [[] [] [] [] [] [] [] []]; reflexivity. Qed.

Lemma ToUpper_ToLower (s : string) : ToUpper (ToLower s) = ToUpper s.
Proof.
  induction s as [|c s IH]; [reflexivity|].
  cbn [ToLower ToUpper]. now rewrite upper_lower, IH.
Qed.

Lemma lower_at (c : ascii) : Ascii.eqb "@" (lower c) = Ascii.eqb "@" c.
Proof. destruct c as [[] [] [] [] [] [] [] []]; reflexivity. Qed.

Lemma contains_at_ToLower (s : string) :
  contains_byte "@" (ToLower s) = contains_byte "@" s.
Proof.
  induction s as [|c s IH]; [reflexivity|].
  cbn [ToLower contains_byte]. now rewrite IH, lower_at.
Qed.

Lemma before_first_append (c : ascii) (a r : string) :
  contains_byte c a = false -> before_first c (a ++ String c r) = a.
Proof.
  induction a as [|x a IH]; simpl.
  - now rewrite Ascii.eqb_refl.
  - intros H. apply orb_false_iff in H as [Hx Ha].
    rewrite Ascii.eqb_sym, Hx, (IH Ha). reflexivity.
Qed.

(** The symbol a combined decoder delivers is the one of the envelope. *)
Lemma combined_Symbol_of_envelope (k : stream_kind) (message sym : string) :
  k <> Trade ->
  combined_Symbol k message = Handler sym ->
  sym = ToUpper (before_first "@" (envelope_stream message)).
Proof.
  intros Hk H. unfold envelope_stream.
  destruct k; try contradiction; clear Hk.
  - unfold combined_Symbol in H.
    destruct (newJSON message) as [err|j] eqn:Hj;
      [unfold WsCombinedPartialDepthServe_wsHandler in H; rewrite Hj in H;
       discriminate H|].
    destruct (WsCombinedPartialDepthServe_cases message j Hj) as [Hok Hbad].
    destruct (partial_depth_data_ok (MustMap (Get j "data"))).
    + rewrite (Hok eq_refl) in H. simpl in H. now inversion H.
    + destruct (Hbad eq_refl) as [p Hp]. rewrite Hp in H. discriminate H.
  - unfold combined_Symbol in H.
    destruct (newJSON message) as [err|j] eqn:Hj;
      [unfold wsCombinedDepthServe_wsHandler in H; rewrite Hj in H;
       discriminate H|].
    destruct (wsCombinedDepthServe_cases message j Hj) as [Hok Hbad].
    destruct (depth_data_ok (MustMap (Get j "data"))).
    + rewrite (Hok eq_refl) in H. simpl in H. now inversion H.
    + destruct (Hbad eq_refl) as [p Hp]. rewrite Hp in H. discriminate H.
  - eapply combined_wsHandler_Symbol; [|exact H]. reflexivity.
  - eapply combined_wsHandler_Symbol; [|exact H]. reflexivity.
  - eapply combined_wsHandler_Symbol; [|exact H]. reflexivity.
Qed.

(** X5. Round trip of a subscription: when the exchange names the stream
    by the descriptor the URL builder wrote for an ASCII symbol (the symbol
    holding no [@]), every combined decoder that recovers the symbol
    delivers that symbol in upper case, whatever case the caller subscribed
    with. *)
Theorem subscribed_symbol_comes_back_uppercased :
  forall (b : combined_builder) (k : stream_kind)
         (symbol param message sym : string),
    k <> Trade ->
    ascii_only symbol = true ->
    contains_byte "@" symbol = false ->
    envelope_stream message = descriptor b (symbol, param) ->
    combined_Symbol k message = Handler sym ->
    sym = ToUpper symbol.
Proof.
  intros b k symbol param message sym Hk Hascii Hat Hstream H.
  rewrite (combined_Symbol_of_envelope k message sym Hk H), Hstream.
  unfold descriptor. cbn [fst snd].
  change (ToLower symbol ++ "@" ++ stream_suffix b param)
    with (ToLower symbol ++ String "@" (stream_suffix b param)).
  rewrite before_first_append by (now rewrite contains_at_ToLower).
  apply ToUpper_ToLower.
Qed.

Lemma subscribed_symbol_comes_back_uppercased_witness :
  WsCombinedAggTradeServe_endpoint false ["BtcUsdt"]
  = Some "wss://fstream.binance.com/stream?streams=btcusdt@aggTrade" /\
  combined_Symbol AggTrade aggtrade_envelope = Handler "BTCUSDT" /\
  "BTCUSDT" = ToUpper "BtcUsdt".
Proof.
  split; [reflexivity|].
  assert (H : combined_Symbol AggTrade aggtrade_envelope = Handler "BTCUSDT")
    by (vm_compute; reflexivity).
  split; [exact H|].
  apply (subscribed_symbol_comes_back_uppercased CombinedAggTrade AggTrade
           "BtcUsdt" "" aggtrade_envelope "BTCUSDT").
  - discriminate.
  - reflexivity.
  - reflexivity.
  - vm_compute. reflexivity.
  - exact H.
Defined.

(** ** Decoding the members of a struct *)

Lemma decode_value_KStruct (fields : list (string * kind))
    (ms : list (string * json)) (st0 : store) :
  decode_value (KStruct fields) (JObject ms) (VStruct st0)
  = match decode_members fields ms st0 with
    | inl e => inl e
    | inr st => inr (VStruct st)
    end.
Proof.
  cbn [decode_value].
  match goal with
  | |- match ?F ms st0 with _ => _ end = _ =>
      assert (H : forall ms st, F ms st = decode_members fields ms st)
  end.
  { clear. induction ms as [|[key v] ms IH]; intros st; [reflexivity|].
    cbn [decode_members]. destruct (find_field fields key) as [[tag k]|];
      [|apply IH].
    destruct (decode_value k v _); [reflexivity|apply IH]. }
  now rewrite H.
Qed.

Lemma decode_value_KPtr (fields : list (string * kind))
    (ms : list (string * json)) (cur : option store) :
  decode_value (KPtr fields) (JObject ms) (VPtr cur)
  = match decode_members fields ms
            (match cur with Some st => st | None => [] end) with
    | inl e => inl e
    | inr st => inr (VPtr (Some st))
    end.
Proof.
  cbn [decode_value].
  match goal with
  | |- match ?F ms ?s0 with _ => _ end = _ =>
      assert (H : forall ms st, F ms st = decode_members fields ms st)
  end.
  { clear. induction ms as [|[key v] ms IH]; intros st; [reflexivity|].
    cbn [decode_members]. destruct (find_field fields key) as [[tag k]|];
      [|apply IH].
    destruct (decode_value k v _); [reflexivity|apply IH]. }
  rewrite H. destruct cur; reflexivity.
Qed.

Lemma unmarshal_value_object (fields : list (string * kind))
    (ms : list (string * json)) :
  unmarshal_value fields (JObject ms) = decode_members fields ms [].
Proof.
  unfold unmarshal_value. rewrite decode_value_KStruct.
  destruct (decode_members fields ms []); reflexivity.
Qed.

Lemma lookup_update (st : store) (tag t : string) (g : gval) :
  lookup (update st tag g) t
  = if String.eqb tag t then Some g else lookup st t.
Proof. reflexivity. Qed.

Lemma decode_scalar (k : kind) (v : json) (cur g : gval) :
  is_scalar k = true ->
  decode_value k v cur = inr g ->
  (v = JNull /\ g = cur) \/ (fits k v = true /\ g = scalar_of v).
Proof.
  intros Hk H. destruct k; try discriminate Hk;
    destruct v; cbn [decode_value] in H; try discriminate H;
    try (left; split; [reflexivity|now inversion H]);
    try (right; split; [reflexivity|now inversion H]).
  right. cbn [fits scalar_of].
  destruct (ParseInt text) as [n [|]]; [discriminate H|].
  split; [reflexivity|now inversion H].
Qed.

Lemma decode_members_untouched (fields : list (string * kind)) (t : string) :
  forall (ms : list (string * json)) (st0 st : store),
    decode_members fields ms st0 = inr st ->
    (forall key v tag k,
        In (key, v) ms -> find_field fields key = Some (tag, k) ->
        tag <> t) ->
    lookup st t = lookup st0 t.
Proof.
  induction ms as [|[key v] ms IH]; intros st0 st H Hne.
  - inversion H. reflexivity.
  - cbn [decode_members] in H.
    destruct (find_field fields key) as [[tag k]|] eqn:Ef.
    + destruct (decode_value k v _) as [e|g]; [discriminate H|].
      rewrite (IH _ _ H) by (intros; eapply Hne; [right|]; eassumption).
      rewrite lookup_update.
      destruct (String.eqb_spec tag t) as [->|]; [|reflexivity].
      exfalso. eapply Hne; [left; reflexivity|exact Ef|reflexivity].
    + apply (IH _ _ H). intros. eapply Hne; [right|]; eassumption.
Qed.

Lemma exact_keys_tags (fields : list (string * kind))
    (ms : list (string * json)) (t : string) :
  forallb (resolves_exactly fields) (map fst ms) = true ->
  ~ In t (map fst ms) ->
  forall key v tag k,
    In (key, v) ms -> find_field fields key = Some (tag, k) -> tag <> t.
Proof.
  intros Hex Hnot key v tag k Hin Hf ->.
  rewrite forallb_forall in Hex.
  assert (Hk : In key (map fst ms)) by (apply in_map_iff; now exists (key, v)).
  specialize (Hex key Hk). unfold resolves_exactly in Hex.
  rewrite Hf in Hex. apply String.eqb_eq in Hex. now subst.
Qed.

(** With distinct keys that do not reach a field through case folding, a
    member's value is what its field holds in the end. *)
Lemma decode_members_member (fields : list (string * kind)) (key : string)
    (v : json) (k : kind) :
  find_field fields key = Some (key, k) ->
  is_scalar k = true ->
  forall (ms : list (string * json)) (st0 st : store),
    decode_members fields ms st0 = inr st ->
    NoDup (map fst ms) ->
    forallb (resolves_exactly fields) (map fst ms) = true ->
    In (key, v) ms ->
    lookup st0 key = None ->
    (v = JNull /\ lookup st key = Some (zero k)) \/
    (fits k v = true /\ lookup st key = Some (scalar_of v)).
Proof.
  intros Hf Hk. induction ms as [|[key0 v0] ms IH];
    intros st0 st H Hnd Hex Hin H0; [contradiction|].
  cbn [map fst] in Hnd, Hex. inversion Hnd as [|? ? Hnotin Hnd']; subst.
  cbn [forallb] in Hex. apply andb_true_iff in Hex as [Hex0 Hex].
  cbn [decode_members] in H. destruct Hin as [Heq|Hin].
  - inversion Heq; subst key0 v0. rewrite Hf, H0 in H.
    destruct (decode_value k v (zero k)) as [e|g] eqn:Ed; [discriminate H|].
    pose proof (decode_members_untouched fields key ms _ st H
                  (exact_keys_tags fields ms key Hex Hnotin)) as Hl.
    rewrite lookup_update, String.eqb_refl in Hl. rewrite Hl.
    destruct (decode_scalar k v _ g Hk Ed) as [[-> ->]|[Hfit ->]];
      [left|right]; now split.
  - assert (Hne : key0 <> key).
    { intros ->. apply Hnotin. apply in_map_iff. now exists (key, v). }
    destruct (find_field fields key0) as [[tag0 k0]|] eqn:Ef0.
    + destruct (decode_value k0 v0 _) as [e|g0]; [discriminate H|].
      apply (IH _ _ H Hnd' Hex Hin).
      rewrite lookup_update.
      unfold resolves_exactly in Hex0. rewrite Ef0 in Hex0.
      apply String.eqb_eq in Hex0. subst tag0.
      destruct (String.eqb_spec key0 key); [contradiction|exact H0].
    + apply (IH _ _ H Hnd' Hex Hin H0).
Qed.

Lemma decode_members_absent (fields : list (string * kind)) (key : string)
    (ms : list (string * json)) (st : store) :
  decode_members fields ms [] = inr st ->
  forallb (resolves_exactly fields) (map fst ms) = true ->
  ~ In key (map fst ms) ->
  lookup st key = None.
Proof.
  intros H Hex Hnot.
  apply (decode_members_untouched fields key ms [] st H).
  now apply exact_keys_tags.
Qed.

Lemma member_string (fields : list (string * kind)) (key s : string)
    (ms : list (string * json)) (st : store) :
  find_field fields key = Some (key, KString) ->
  decode_members fields ms [] = inr st ->
  NoDup (map fst ms) ->
  forallb (resolves_exactly fields) (map fst ms) = true ->
  In (key, JString s) ms ->
  get_string st key = s.
Proof.
  intros Hf H Hnd Hex Hin. unfold get_string.
  destruct (decode_members_member fields key (JString s) KString Hf eq_refl
              ms [] st H Hnd Hex Hin eq_refl) as [[Hn _]|[_ ->]];
    [discriminate Hn|reflexivity].
Qed.

Lemma member_int64 (fields : list (string * kind)) (key text : string)
    (ms : list (string * json)) (st : store) :
  find_field fields key = Some (key, KInt64) ->
  decode_members fields ms [] = inr st ->
  NoDup (map fst ms) ->
  forallb (resolves_exactly fields) (map fst ms) = true ->
  In (key, JNumber text) ms ->
  ParseInt text = (get_int64 st key, false).
Proof.
  intros Hf H Hnd Hex Hin. unfold get_int64.
  destruct (decode_members_member fields key (JNumber text) KInt64 Hf eq_refl
              ms [] st H Hnd Hex Hin eq_refl) as [[Hn _]|[Hfit ->]];
    [discriminate Hn|].
  cbn [fits scalar_of] in *. destruct (ParseInt text) as [n bad].
  cbn [fst snd] in *. now destruct bad.
Qed.

Lemma member_bool (fields : list (string * kind)) (key : string) (b : bool)
    (ms : list (string * json)) (st : store) :
  find_field fields key = Some (key, KBool) ->
  decode_members fields ms [] = inr st ->
  NoDup (map fst ms) ->
  forallb (resolves_exactly fields) (map fst ms) = true ->
  In (key, JBool b) ms ->
  get_bool st key = b.
Proof.
  intros Hf H Hnd Hex Hin. unfold get_bool.
  destruct (decode_members_member fields key (JBool b) KBool Hf eq_refl
              ms [] st H Hnd Hex Hin eq_refl) as [[Hn _]|[_ ->]];
    [discriminate Hn|reflexivity].
Qed.

(** X7. Field mapping of the flat trade decoder: for a message that is a
    JSON object with distinct keys, none of which reaches a field through
    case folding only, every delivered field holds the value of its own key
    - the decimal strings untouched, the numbers as [ParseInt] reads them,
    [m] and [M] apart - and each of the eleven fields holds its zero value
    when its key is missing. *)
Theorem trade_fields_follow_keys :
  forall (message : string) (ms : list (string * json)) (e : WsTradeEvent.t),
    parse_document message = Some (JObject ms) ->
    NoDup (map fst ms) ->
    forallb (resolves_exactly WsTradeEvent.fields) (map fst ms) = true ->
    WsTradeServe_wsHandler message = Handler e ->
    (forall s, In ("e", JString s) ms -> WsTradeEvent.Event e = s) /\
    (forall s, In ("s", JString s) ms -> WsTradeEvent.Symbol e = s) /\
    (forall s, In ("p", JString s) ms -> WsTradeEvent.Price e = s) /\
    (forall s, In ("q", JString s) ms -> WsTradeEvent.Quantity e = s) /\
    (forall t, In ("E", JNumber t) ms ->
               ParseInt t = (WsTradeEvent.Time e, false)) /\
    (forall t, In ("t", JNumber t) ms ->
               ParseInt t = (WsTradeEvent.TradeID e, false)) /\
    (forall t, In ("b", JNumber t) ms ->
               ParseInt t = (WsTradeEvent.BuyerOrderID e, false)) /\
    (forall t, In ("a", JNumber t) ms ->
               ParseInt t = (WsTradeEvent.SellerOrderID e, false)) /\
    (forall t, In ("T", JNumber t) ms ->
               ParseInt t = (WsTradeEvent.TradeTime e, false)) /\
    (forall b, In ("m", JBool b) ms -> WsTradeEvent.IsBuyerMaker e = b) /\
    (forall b, In ("M", JBool b) ms -> WsTradeEvent.Placeholder e = b) /\
    (~ In "e" (map fst ms) -> WsTradeEvent.Event e = "") /\
    (~ In "E" (map fst ms) -> WsTradeEvent.Time e = 0%Z) /\
    (~ In "s" (map fst ms) -> WsTradeEvent.Symbol e = "") /\
    (~ In "t" (map fst ms) -> WsTradeEvent.TradeID e = 0%Z) /\
    (~ In "p" (map fst ms) -> WsTradeEvent.Price e = "") /\
    (~ In "q" (map fst ms) -> WsTradeEvent.Quantity e = "") /\
    (~ In "b" (map fst ms) -> WsTradeEvent.BuyerOrderID e = 0%Z) /\
    (~ In "a" (map fst ms) -> WsTradeEvent.SellerOrderID e = 0%Z) /\
    (~ In "T" (map fst ms) -> WsTradeEvent.TradeTime e = 0%Z) /\
    (~ In "m" (map fst ms) -> WsTradeEvent.IsBuyerMaker e = false) /\
    (~ In "M" (map fst ms) -> WsTradeEvent.Placeholder e = false).
Proof.
  intros message ms e Hdoc Hnd Hex H.
  unfold WsTradeServe_wsHandler, typed_wsHandler, Unmarshal in H.
  rewrite Hdoc, unmarshal_value_object in H.
  destruct (decode_members WsTradeEvent.fields ms []) as [err|st] eqn:Hd;
    [discriminate H|].
  inversion H; subst e; clear H.
  cbn [WsTradeEvent.of_store WsTradeEvent.Event WsTradeEvent.Symbol
       WsTradeEvent.Price WsTradeEvent.Quantity WsTradeEvent.Time
       WsTradeEvent.TradeID WsTradeEvent.BuyerOrderID
       WsTradeEvent.SellerOrderID WsTradeEvent.TradeTime
       WsTradeEvent.IsBuyerMaker WsTradeEvent.Placeholder].
  repeat match goal with |- _ /\ _ => split end;
    try (intros s Hin;
         eapply (member_string WsTradeEvent.fields);
         [|exact Hd|exact Hnd|exact Hex|exact Hin]; reflexivity);
    try (intros t Hin;
         eapply (member_int64 WsTradeEvent.fields);
         [|exact Hd|exact Hnd|exact Hex|exact Hin]; reflexivity);
    try (intros b Hin;
         eapply (member_bool WsTradeEvent.fields);
         [|exact Hd|exact Hnd|exact Hex|exact Hin]; reflexivity);
    intros Hnot;
    unfold get_string, get_int64, get_bool;
    now rewrite (decode_members_absent WsTradeEvent.fields _ ms st Hd Hex
                   Hnot).
Qed.

Lemma trade_fields_follow_keys_witness :
  exists e,
    WsTradeServe_wsHandler trade_message = Handler e /\
    WsTradeEvent.Price e = "0.001" /\
    WsTradeEvent.TradeID e = 12345%Z /\
    WsTradeEvent.Placeholder e = true.
Proof.
  destruct (WsTradeServe_wsHandler trade_message) as [e| |] eqn:He;
    [|vm_compute in He; discriminate He ..].
  destruct (parse_document trade_message) as [[| | | | |ms]|] eqn:Hdoc;
    try (vm_compute in Hdoc; discriminate Hdoc).
  pose proof Hdoc as Hdoc'. vm_compute in Hdoc'. injection Hdoc' as Hms.
  assert (Hnd : NoDup (map fst ms)).
  { rewrite <- Hms. cbn [map fst].
    repeat (constructor; [cbn [In]; intros Hin;
                          repeat (destruct Hin as [Hin|Hin];
                                  [discriminate Hin|]); exact Hin|]).
    constructor. }
  assert (Hex : forallb (resolves_exactly WsTradeEvent.fields) (map fst ms)
                = true) by (rewrite <- Hms; vm_compute; reflexivity).
  destruct (trade_fields_follow_keys trade_message ms e Hdoc Hnd Hex He)
    as (_ & _ & Hp & _ & _ & Ht & _ & _ & _ & _ & HM & _).
  exists e. split; [reflexivity|]. split; [|split].
  - apply Hp. rewrite <- Hms. cbn [In]. tauto.
  - assert (Hx : ParseInt "12345" = (WsTradeEvent.TradeID e, false))
      by (apply Ht; rewrite <- Hms; cbn [In]; tauto).
    vm_compute in Hx. now inversion Hx.
  - apply HM. rewrite <- Hms. cbn [In]. tauto.
Defined.

(** ** The flat book ticker decoders *)



(** ** The streams that push an array of records *)

Section SliceDecoding.

Variable k : kind.

Lemma decode_elements_Forall2 (elems : list json) (gs : list gval) :
  decode_elements k elems = inr gs <->
  Forall2 (fun elem g => decode_value k elem (zero k) = inr g) elems gs.
Proof.
  revert gs. induction elems as [|v elems IH]; intros gs;
    cbn [decode_elements].
  - split; intros H; inversion H; constructor.
  - split.
    + intros H.
      destruct (decode_value k v (zero k)) as [e|g] eqn:Ev; [discriminate H|].
      destruct (decode_elements k elems) as [e|gs'] eqn:Es;
        [discriminate H|].
      inversion H; subst. constructor; [exact Ev|now apply IH].
    + intros H. inversion H as [|? g ? gs' Hg Hgs]; subst.
      rewrite Hg. apply IH in Hgs. now rewrite Hgs.
Qed.

End SliceDecoding.

Lemma pointer_element {E : Type} (fields : list (string * kind))
    (of_store : store -> E) (elem : json) (ev : option E) :
  (exists g, decode_value (KPtr fields) elem (zero (KPtr fields)) = inr g /\
             ev = option_map of_store (pointer_of g)) <->
  reads_pointer fields of_store elem ev.
Proof.
  unfold reads_pointer. cbn [zero]. split.
  - intros (g & Hd & ->). destruct elem as [| | | | |ms];
      try (cbn in Hd; discriminate Hd).
    + left. cbn in Hd. inversion Hd. now split.
    + right. rewrite decode_value_KPtr in Hd.
      destruct (decode_members fields ms []) as [e|st] eqn:Hm;
        [discriminate Hd|].
      inversion Hd. now exists ms, st.
  - intros [[-> ->]|(ms & st & -> & Hm & ->)].
    + exists (VPtr None). now split.
    + exists (VPtr (Some st)). split; [|reflexivity].
      rewrite decode_value_KPtr, Hm. reflexivity.
Qed.


Lemma Forall2_map_r {A B C : Type} (R : A -> C -> Prop) (f : B -> C)
    (l : list A) (l' : list B) :
  Forall2 R l (map f l') <-> Forall2 (fun a b => R a (f b)) l l'.
Proof.
  revert l'. induction l as [|a l IH]; intros [|b l']; cbn [map];
    split; intros H; inversion H; subst; constructor;
    try assumption; now apply IH.
Qed.

(** What [Unmarshal] into a slice gives, by the relation its elements read
    by. *)
Lemma unmarshal_slice_delivers {E : Type} (k : kind) (conv : gval -> E)
    (read : json -> E -> Prop) (doc : json) (evs : list E) :
  (forall elem ev,
      (exists g, decode_value k elem (zero k) = inr g /\ ev = conv g)
      <-> read elem ev) ->
  (exists gs, unmarshal_slice k doc = inr gs /\ evs = map conv gs) <->
  (null_or_array doc = true /\ Forall2 read (MustArray doc) evs).
Proof.
  intros Hread. split.
  - intros (gs & H & ->).
    destruct doc as [| | | |elems|]; try discriminate H.
    + inversion H. split; [reflexivity|constructor].
    + split; [reflexivity|]. cbn [unmarshal_slice MustArray] in *.
      apply decode_elements_Forall2 in H. apply Forall2_map_r.
      eapply Forall2_impl; [|exact H].
      intros elem g Hg. apply Hread. now exists g.
  - intros (Hok & Hall).
    destruct doc as [| | | |elems|]; try discriminate Hok.
    + inversion Hall. now exists [].
    + cbn [unmarshal_slice MustArray] in *. clear Hok.
      revert evs Hall. induction elems as [|elem elems IH]; intros evs Hall.
      * inversion Hall. now exists [].
      * inversion Hall as [|? ev ? evs' Hr Hrest]; subst.
        apply Hread in Hr as (g & Hg & ->).
        destruct (IH _ Hrest) as (gs & Hgs & ->).
        exists (g :: gs). cbn [decode_elements]. now rewrite Hg, Hgs.
Qed.




(** ** The mark price stream for all symbols *)

Lemma remarshal_null_or_array (v : json) :
  null_or_array (remarshal v) = null_or_array v /\
  List.length (MustArray (remarshal v)) = List.length (MustArray v).
Proof.
  destruct v; try (split; reflexivity).
  cbn [remarshal null_or_array MustArray]. now rewrite length_map.
Qed.

(** X11. On a JSON envelope, [WsCombinedMarkPriceForAllServe] calls the
    success handler exactly when the envelope's [data] is missing, [null]
    or an array whose elements are each [null] or an object that decodes,
    and then with one record per element; missing data gives the empty
    sequence and no error. Any other [data] is reported to the error
    handler as a type error; the decoder never panics. *)
Theorem mark_price_for_all_delivers_one_record_per_element :
  forall (message : string) (j : json),
    newJSON message = inr j ->
    let data := Get j "data" in
    (forall evs,
        WsCombinedMarkPriceForAllServe_wsHandler message = Handler evs <->
        null_or_array data = true /\
        Forall2 (reads_pointer WsMarkPriceEvent.fields
                   WsMarkPriceEvent.of_store)
          (MustArray (remarshal data)) evs) /\
    (forall evs,
        WsCombinedMarkPriceForAllServe_wsHandler message = Handler evs ->
        List.length evs = List.length (MustArray data)) /\
    (data = JNull ->
     WsCombinedMarkPriceForAllServe_wsHandler message = Handler []) /\
    (null_or_array data = false ->
     WsCombinedMarkPriceForAllServe_wsHandler message
     = ErrHandler UnmarshalTypeError) /\
    (forall p, WsCombinedMarkPriceForAllServe_wsHandler message <> Panic p).
Proof.
  intros message j Hj data.
  assert (Hiff : forall evs,
             WsCombinedMarkPriceForAllServe_wsHandler message = Handler evs <->
             null_or_array data = true /\
             Forall2 (reads_pointer WsMarkPriceEvent.fields
                        WsMarkPriceEvent.of_store)
               (MustArray (remarshal data)) evs).
  { intros evs.
    rewrite <- (proj1 (remarshal_null_or_array data)).
    rewrite <- (unmarshal_slice_delivers (KPtr WsMarkPriceEvent.fields)
                  (fun g => option_map WsMarkPriceEvent.of_store
                              (pointer_of g)))
      by apply pointer_element.
    unfold WsCombinedMarkPriceForAllServe_wsHandler. rewrite Hj. fold data.
    destruct (unmarshal_slice _ (remarshal data)) as [err|gs].
    - split; [discriminate|]. intros (gs & H & _). discriminate H.
    - split.
      + intros H. inversion H. now exists gs.
      + intros (gs' & H & ->). now inversion H. }
  split; [exact Hiff|]. split; [|split; [|split]].
  - intros evs H. apply Hiff in H as [_ Hall].
    apply Forall2_length in Hall.
    now rewrite <- Hall, (proj2 (remarshal_null_or_array data)).
  - intros Hnull. apply Hiff. rewrite Hnull. split; [reflexivity|constructor].
  - intros Hbad. unfold WsCombinedMarkPriceForAllServe_wsHandler.
    rewrite Hj. fold data.
    destruct data; try discriminate Hbad; reflexivity.
  - intros p. unfold WsCombinedMarkPriceForAllServe_wsHandler. rewrite Hj.
    destruct (unmarshal_slice _ _); discriminate.
Qed.

Lemma mark_price_for_all_delivers_one_record_per_element_witness :
  exists evs,
    WsCombinedMarkPriceForAllServe_wsHandler mark_price_envelope
    = Handler evs /\
    List.length evs = 1%nat.
Proof.
  destruct (newJSON mark_price_envelope) as [err|j] eqn:Hj;
    [vm_compute in Hj; discriminate Hj|].
  destruct (WsCombinedMarkPriceForAllServe_wsHandler mark_price_envelope)
    as [evs| |] eqn:He; [|vm_compute in He; discriminate He ..].
  exists evs. split; [reflexivity|].
  destruct (mark_price_for_all_delivers_one_record_per_element
              mark_price_envelope j Hj) as (_ & Hlen & _).
  rewrite (Hlen evs He).
  vm_compute in Hj. inversion Hj. reflexivity.
Defined.

(** ** The typed combined decoders on an envelope without data *)



(** ** The asset index call on unexpected bodies *)

Lemma response_of_non_object (elem : json) :
  MustMap elem = [] ->
  AssetIndexService.response_of elem = AssetIndexService.response_of JNull.
Proof.
  intros H. unfold AssetIndexService.response_of.
  rewrite !Get_MustMap, H. reflexivity.
Qed.

(** X13. A response body that is JSON never makes [Do] fail: the result
    has as many records as the body's array has elements, with a record of
    zero values for every element that is not an object; a body that is not
    an array - an error object of the API, for one - gives an empty,
    non-nil result and a nil error. *)
Theorem AssetIndexService_Do_on_unexpected_bodies :
  forall (data : string) (j : json),
    newJSON data = inr j ->
    exists res,
      AssetIndexService.Do (inr data) = (Some res, None) /\
      List.length res = List.length (MustArray j) /\
      (forall i elem,
          nth_error (MustArray j) i = Some elem ->
          MustMap elem = [] ->
          nth_error res i = Some (AssetIndexService.response_of JNull)) /\
      (MustArray j = [] -> res = []).
Proof.
  intros data j Hj.
  exists (map AssetIndexService.response_of (MustArray j)).
  unfold AssetIndexService.Do. rewrite Hj, Do_loop.
  split; [reflexivity|split; [apply length_map|split]].
  - intros i elem Hi Hm. rewrite nth_error_map, Hi. cbn [option_map].
    now rewrite (response_of_non_object elem Hm).
  - intros ->. reflexivity.
Qed.

Lemma AssetIndexService_Do_on_unexpected_bodies_witness :
  AssetIndexService.Do (inr asset_index_error_body) = (Some [], None).
Proof.
  destruct (newJSON asset_index_error_body) as [err|j] eqn:Hj;
    [vm_compute in Hj; discriminate Hj|].
  destruct (AssetIndexService_Do_on_unexpected_bodies
              asset_index_error_body j Hj) as (res & Hdo & _ & _ & Hnil).
  rewrite Hdo. rewrite Hnil; [reflexivity|].
  vm_compute in Hj. inversion Hj. reflexivity.
Defined.

(** ** Price levels in flat mode *)

(** X14. The flat depth and partial depth decoders deliver, for every JSON
    message, one price level per element of the bids and asks arrays, in
    the order of the arrays: price and quantity are the first two entries
    of the element when these are strings, kept as the strings they are;
    an entry that is missing or not a string reads as the empty string, and
    a side that is missing or not an array has no levels. *)
Theorem flat_depth_levels :
  forall (symbol message : string) (j : json),
    newJSON message = inr j ->
    (exists e,
        wsPartialDepthServe_wsHandler symbol message = Handler e /\
        WsPartialDepthEvent.Bids e
        = map level_of (MustArray (Get j "bids")) /\
        WsPartialDepthEvent.Asks e
        = map level_of (MustArray (Get j "asks"))) /\
    (exists e,
        wsDepthServe_wsHandler message = Handler e /\
        WsDepthEvent.Bids e = map level_of (MustArray (Get j "b")) /\
        WsDepthEvent.Asks e = map level_of (MustArray (Get j "a"))) /\
    (forall p q rest,
        level_of (JArray (JString p :: JString q :: rest))
        = {| Price := p; Quantity := q |}) /\
    (forall item,
        MustArray item = [] ->
        level_of item = {| Price := ""; Quantity := "" |}) /\
    (forall p,
        level_of (JArray [JString p]) = {| Price := p; Quantity := "" |}).
Proof.
  intros symbol message j Hj. split; [|split; [|split; [|split]]].
  - unfold wsPartialDepthServe_wsHandler. rewrite Hj. eexists.
    split; [reflexivity|].
    cbn [WsPartialDepthEvent.Bids WsPartialDepthEvent.Asks].
    now rewrite !flat_levels_map.
  - unfold wsDepthServe_wsHandler. rewrite Hj. eexists.
    split; [reflexivity|].
    cbn [WsDepthEvent.Bids WsDepthEvent.Asks].
    now rewrite !flat_levels_map.
  - reflexivity.
  - intros item H. destruct item; try reflexivity.
    cbn [MustArray] in H. now subst.
  - reflexivity.
Qed.

Lemma flat_depth_levels_witness :
  exists e,
    wsPartialDepthServe_wsHandler "BTCUSDT" partial_depth_message
    = Handler e /\
    WsPartialDepthEvent.Bids e = [{| Price := "0.0024"; Quantity := "10" |}].
Proof.
  destruct (newJSON partial_depth_message) as [err|j] eqn:Hj;
    [vm_compute in Hj; discriminate Hj|].
  destruct (flat_depth_levels "BTCUSDT" partial_depth_message j Hj)
    as ((e & He & Hb & _) & _).
  exists e. split; [exact He|]. rewrite Hb.
  vm_compute in Hj. inversion Hj. reflexivity.
Defined.
